(** * k8sutils: the HPA scale-strategy engine and the gauge renderer

    A shallow embedding of the [hpa] command of k8sutils (Go), in the
    version that has the [CPUTarget] argument:

    - [getStrategy], [reconcileMax], [reconcileMin], [modifyHPA] and the
      loop of [Run], together with the three regular expressions [Number],
      [Percentage] and [Multiply];
    - [formatMarks] of [program/output.go], with the [Mark] type, the [Max]
      sentinel and the package variables [field] and [spaces].

    Go values are modelled as follows.  An [int32] or [int] is a [Z] whose
    wrap-around is written out where the code converts or computes ([int]
    has 64 bits).  A [float64] is a [spec_float] of the Standard Library at
    precision 53 and maximal exponent 1024, so every floating-point
    operation of the code is computed bit for bit.  A [*int32] is an
    optional location in a heap of cells, so that writing through a pointer
    and replacing a pointer are different operations.  A run-time panic is
    an explicit outcome.  The library functions that the code calls
    ([strconv.Atoi], [strconv.ParseFloat], [regexp], [sort.Slice],
    [math.Ceil], [fmt.Sprint], [errors.Join]) are modelled from their
    documentation, on the inputs that the code can pass to them.

    The file has three parts: the model, lemmas about the model, and the
    claims about the program, C1 to C10, each with its theorem. *)

From Stdlib Require Import ZArith Lia Bool Ascii String List SpecFloat.
From Stdlib Require Import DecimalString.
From stdpp Require Import base list.

Open Scope string_scope.
Open Scope Z_scope.

(** ** Fixed-width integers *)

Definition MinInt32 : Z := - 2 ^ 31.
Definition MaxInt32 : Z := 2 ^ 31 - 1.
Definition MinInt : Z := - 2 ^ 63.

(** [math.MaxInt] where [int] has 64 bits. *)
Definition MaxInt : Z := 2 ^ 63 - 1.

Definition is_int32 (z : Z) : bool := (MinInt32 <=? z) && (z <=? MaxInt32).
Definition is_int (z : Z) : bool := (MinInt <=? z) && (z <=? MaxInt).

(** The conversion [int32(n)] of an integer [n]: the low 32 bits, read as a
    two's-complement number. *)
Definition int32 (n : Z) : Z := (n + 2 ^ 31) mod 2 ^ 32 - 2 ^ 31.

(** The result of an [int] operation whose mathematical value is [n]: the
    low 64 bits. *)
Definition int (n : Z) : Z := (n + 2 ^ 63) mod 2 ^ 64 - 2 ^ 63.

(** The Go specification leaves one thing open that the code meets: the
    value of a conversion from [float64] to an integer type that cannot
    represent the operand ("the conversion succeeds but the result value is
    implementation-dependent").  It is a parameter of the development. *)
Class Platform := {
  unrepresentable32 : spec_float -> Z;
  unrepresentable64 : spec_float -> Z
}.

(** On amd64 the truncating conversion instructions return the smallest
    integer of the target type. *)
#[export] Instance amd64 : Platform := {|
  unrepresentable32 := fun _ => MinInt32;
  unrepresentable64 := fun _ => MinInt
|}.

(** ** float64 *)

Module Float64.

Definition prec : Z := 53.
Definition emax : Z := 1024.

Definition mul : spec_float -> spec_float -> spec_float := SFmul prec emax.
Definition div : spec_float -> spec_float -> spec_float := SFdiv prec emax.

(** [float64(n)] for an integer [n], rounded to nearest even. *)
Definition of_int (n : Z) : spec_float := binary_normalize prec emax n 0 false.

(** A [float32] value read as a [float64] (always exact). *)
Definition of_float32 (x : spec_float) : spec_float :=
  match x with
  | S754_finite s m e => binary_normalize prec emax (cond_Zopp s (Zpos m)) e s
  | _ => x
  end.

(** The integer part of a finite float, rounded toward zero. *)
Definition truncate (x : spec_float) : option Z :=
  match x with
  | S754_zero _ => Some 0
  | S754_finite s m e => Some (cond_Zopp s (Z.shiftl (Zpos m) e))
  | _ => None
  end.

(** The least integer not below a finite non-zero float. *)
Definition ceiling (s : bool) (m : positive) (e : Z) : Z :=
  if s then - Z.shiftl (Zpos m) e else - Z.shiftl (Zneg m) e.

(** [math.Ceil]: zeros, infinities and NaN are returned unchanged, and a
    result that is zero keeps the sign of the operand. *)
Definition Ceil (x : spec_float) : spec_float :=
  match x with
  | S754_finite s m e =>
      let c := ceiling s m e in
      if c =? 0 then S754_zero s else of_int c
  | _ => x
  end.

Section Conversions.
Context `{Platform}.

(** [int32(x)] for a [float64] [x]: the fraction is discarded. *)
Definition to_int32 (x : spec_float) : Z :=
  match truncate x with
  | Some z => if is_int32 z then z else int32 (unrepresentable32 x)
  | None => int32 (unrepresentable32 x)
  end.

(** [int(x)] for a [float64] [x]. *)
Definition to_int (x : spec_float) : Z :=
  match truncate x with
  | Some z => if is_int z then z else int (unrepresentable64 x)
  | None => int (unrepresentable64 x)
  end.
End Conversions.

End Float64.

(** ** Strings, [strconv] and [regexp] *)

(** [len(s)] *)
Definition len (s : string) : Z := Z.of_nat (String.length s).

Definition isDigit (c : ascii) : bool :=
  let n := Z.of_nat (nat_of_ascii c) in (48 <=? n) && (n <=? 57).

Definition digitValue (c : ascii) : Z := Z.of_nat (nat_of_ascii c) - 48.

Fixpoint all_chars (P : ascii -> bool) (s : string) : bool :=
  match s with
  | EmptyString => true
  | String c rest => P c && all_chars P rest
  end.

(** [s[:len(s)-1]], for a string that is not empty. *)
Fixpoint dropLast (s : string) : string :=
  match s with
  | EmptyString => EmptyString
  | String _ EmptyString => EmptyString
  | String c rest => String c (dropLast rest)
  end.

#[warnings="-register-all"]
Inductive error :=
  | NumError (func num : string) (syntax : bool)
  | errorString (msg : string)
  | joinError (errs : list error).

Module errors.
Definition New (msg : string) : error := errorString msg.

(** [errors.Join(errs...)]: the nil errors are discarded, and the result is
    nil when nothing is left. *)
Definition Join (errs : list (option error)) : option error :=
  match omap id errs with
  | [] => None
  | es => Some (joinError es)
  end.
End errors.

Module strconv.

Definition ErrSyntax (func num : string) : error := NumError func num true.
Definition ErrRange (func num : string) : error := NumError func num false.

(** Value of a string of decimal digits, most significant first. *)
Fixpoint digits (acc : Z) (s : string) : Z :=
  match s with
  | EmptyString => acc
  | String c rest => digits (10 * acc + digitValue c) rest
  end.

(** [strconv.Atoi] on an unsigned decimal string.  The callers pass
    strings that [Number] matches, so signs are not modelled: any
    character that is not a digit is a syntax error here. *)
Definition Atoi (s : string) : Z + error :=
  match s with
  | EmptyString => inr (ErrSyntax "Atoi" s)
  | _ =>
      if all_chars isDigit s then
        let n := digits 0 s in
        if n <=? MaxInt then inl n else inr (ErrRange "Atoi" s)
      else inr (ErrSyntax "Atoi" s)
  end.

(** The decimal reader of [ParseFloat]: the digits read so far as an
    integer, how many of them follow the point, and whether a point and a
    digit were seen.  A second point, or any other character, stops it. *)
Fixpoint readDecimal (mant : Z) (frac : nat) (sawdot sawdigits : bool)
    (s : string) : option (Z * nat) :=
  match s with
  | EmptyString => if sawdigits then Some (mant, frac) else None
  | String c rest =>
      if isDigit c then
        readDecimal (10 * mant + digitValue c)
                    (if sawdot then S frac else frac) sawdot true rest
      else if Ascii.eqb c "." then
        if sawdot then None else readDecimal mant frac true sawdigits rest
      else None
  end.

(** The [float32] nearest to [mant / 10 ^ frac], ties to even. *)
Definition nearest32 (mant : Z) (frac : nat) : spec_float :=
  match mant with
  | Zpos m =>
      SFdiv 24 128 (S754_finite false m 0)
                   (S754_finite false (Z.to_pos (10 ^ Z.of_nat frac)) 0)
  | _ => S754_zero false
  end.

(** [strconv.ParseFloat(s, 32)] on an unsigned decimal string without
    exponent: the nearest [float32], returned as a [float64]; a value that
    rounds beyond the largest [float32] is a range error.  The callers
    pass strings over the characters [0-9], [.] and [\], so signs,
    exponents, hexadecimal forms, underscores, infinities and NaN are not
    modelled: they are syntax errors here. *)
Definition ParseFloat32 (s : string) : spec_float + error :=
  match readDecimal 0 0 false false s with
  | Some (mant, frac) =>
      match nearest32 mant frac with
      | S754_infinity _ => inr (ErrRange "ParseFloat" s)
      | x => inl (Float64.of_float32 x)
      end
  | None => inr (ErrSyntax "ParseFloat" s)
  end.

End strconv.

Module regexp.

(** The character class [[0-9\\.]] of the two patterns below: a digit, a
    backslash or a point. *)
Definition numberChar (c : ascii) : bool :=
  isDigit c || Ascii.eqb c "\" || Ascii.eqb c ".".

(** One or more characters of a class, then one closing character, then
    the end of the text. *)
Fixpoint classThen (class : ascii -> bool) (final : ascii) (s : string) : bool :=
  match s with
  | EmptyString => false
  | String c rest =>
      class c &&
      match rest with
      | String c' EmptyString => Ascii.eqb c' final
      | _ => classThen class final rest
      end
  end.

End regexp.

(** [Number = regexp.MustCompile(`^[0-9]+$`)], as [Number.MatchString]. *)
Definition Number (s : string) : bool :=
  match s with
  | EmptyString => false
  | _ => all_chars isDigit s
  end.

(** [Percentage = regexp.MustCompile(`^[0-9\\.]+%$`)] *)
Definition Percentage (s : string) : bool :=
  regexp.classThen regexp.numberChar "%" s.

(** [Multiply = regexp.MustCompile(`^[0-9\\.]+x$`)] *)
Definition Multiply (s : string) : bool :=
  regexp.classThen regexp.numberChar "x" s.

(** ** Panics, the heap and the autoscaler record *)

Inductive panic :=
  | NilPointerDereference
  | SliceBoundsOutOfRange (bound : Z)
  | IndexOutOfRange (index : Z).

Inductive outcome (A : Type) :=
  | Returns (a : A)
  | Panics (p : panic).
Arguments Returns {A} a.
Arguments Panics {A} p.

(** A [*int32] is [None] (the nil pointer) or the location of a cell. *)
Definition loc := nat.
Definition pointer := option loc.

(** The cells that [*int32] pointers point to. *)
Definition heap := list Z.

(** A computation that reads and writes the heap and may panic. *)
Definition Go (A : Type) : Type := heap -> outcome (A * heap).

Definition ret {A} (a : A) : Go A := fun h => Returns (a, h).

Definition bind {A B} (m : Go A) (k : A -> Go B) : Go B :=
  fun h =>
    match m h with
    | Returns (a, h') => k a h'
    | Panics p => Panics p
    end.

Notation "x <- m ;; k" := (bind m (fun x => k))
  (at level 100, m at next level, right associativity).
Notation "m ;;; k" := (bind m (fun _ => k))
  (at level 100, right associativity).

(** [*p] as a value *)
Definition load (p : pointer) : Go Z := fun h =>
  match p with
  | Some l =>
      match h !! l with
      | Some v => Returns (v, h)
      | None => Panics NilPointerDereference
      end
  | None => Panics NilPointerDereference
  end.

(** [*p = v] *)
Definition store (p : pointer) (v : Z) : Go unit := fun h =>
  match p with
  | Some l =>
      match h !! l with
      | Some _ => Returns (tt, <[l := v]> h)
      | None => Panics NilPointerDereference
      end
  | None => Panics NilPointerDereference
  end.

(** [&v] for a local variable [v]: a cell of its own. *)
Definition addressOf (v : Z) : Go pointer := fun h =>
  Returns (Some (List.length h), (h ++ [v])%list).

(** The fields of [hpa.Spec] of a [v1.HorizontalPodAutoscaler] that the
    command reads and writes: [MinReplicas *int32], [MaxReplicas int32] and
    [TargetCPUUtilizationPercentage *int32]. *)
Record HorizontalPodAutoscaler := {
  MinReplicas : pointer;
  MaxReplicas : Z;
  TargetCPUUtilizationPercentage : pointer
}.

Definition setMinReplicas (p : pointer) (hpa : HorizontalPodAutoscaler) :=
  {| MinReplicas := p;
     MaxReplicas := MaxReplicas hpa;
     TargetCPUUtilizationPercentage := TargetCPUUtilizationPercentage hpa |}.

Definition setMaxReplicas (v : Z) (hpa : HorizontalPodAutoscaler) :=
  {| MinReplicas := MinReplicas hpa;
     MaxReplicas := v;
     TargetCPUUtilizationPercentage := TargetCPUUtilizationPercentage hpa |}.

(** The arguments of the command that [getStrategy] reads. *)
Record Hpa := {
  Minimum : string;
  Maximum : string;
  CPUTarget : Z
}.

(** [type strategy func(hpa *v1.HorizontalPodAutoscaler) error]: the record
    behind the pointer is passed in and handed back. *)
Definition strategy : Type :=
  HorizontalPodAutoscaler -> Go (HorizontalPodAutoscaler * option error).

(** ** Reconciliation and strategy resolution *)

Definition reconcileMax (hpa : HorizontalPodAutoscaler) : Go HorizontalPodAutoscaler :=
  min <- load (MinReplicas hpa) ;;
  if min >? MaxReplicas hpa then
    min' <- load (MinReplicas hpa) ;;
    ret (setMaxReplicas min' hpa)
  else ret hpa.

Definition reconcileMin (hpa : HorizontalPodAutoscaler) : Go HorizontalPodAutoscaler :=
  min <- load (MinReplicas hpa) ;;
  if min >? MaxReplicas hpa then
    store (MinReplicas hpa) (MaxReplicas hpa) ;;;
    ret hpa
  else ret hpa.

Section Strategies.
Context `{Platform}.

(** The closures that [getStrategy] returns, in the order of its cases. *)

Definition setCPUTarget (target : Z) : strategy := fun hpa =>
  store (TargetCPUUtilizationPercentage hpa) (int32 target) ;;;
  ret (hpa, None).

Definition setMinimumNumber (num : Z) : strategy := fun hpa =>
  let minimum := int32 num in
  p <- addressOf minimum ;;
  hpa <- reconcileMax (setMinReplicas p hpa) ;;
  ret (hpa, None).

Definition setMinimumPercentage (percent : spec_float) : strategy := fun hpa =>
  let minimum :=
    Float64.to_int32
      (Float64.Ceil
         (Float64.mul (Float64.div percent (Float64.of_int 100))
                      (Float64.of_int (MaxReplicas hpa)))) in
  store (MinReplicas hpa) minimum ;;;
  hpa <- reconcileMax hpa ;;
  ret (hpa, None).

Definition setMinimumMultiply (multiplier : spec_float) : strategy := fun hpa =>
  old <- load (MinReplicas hpa) ;;
  let minimum := Float64.to_int32 (Float64.mul (Float64.of_int old) multiplier) in
  p <- addressOf minimum ;;
  hpa <- reconcileMax (setMinReplicas p hpa) ;;
  ret (hpa, None).

Definition setMaximumNumber (num : Z) : strategy := fun hpa =>
  hpa <- reconcileMin (setMaxReplicas (int32 num) hpa) ;;
  ret (hpa, None).

Definition setMaximumPercentage (percent : spec_float) : strategy := fun hpa =>
  let maximum :=
    Float64.to_int32
      (Float64.Ceil
         (Float64.mul (Float64.div percent (Float64.of_int 100))
                      (Float64.of_int (MaxReplicas hpa)))) in
  hpa <- reconcileMin (setMaxReplicas maximum hpa) ;;
  ret (hpa, None).

Definition setMaximumMultiply (multiplier : spec_float) : strategy := fun hpa =>
  let maximum :=
    Float64.to_int32 (Float64.mul (Float64.of_int (MaxReplicas hpa)) multiplier) in
  hpa <- reconcileMin (setMaxReplicas maximum hpa) ;;
  ret (hpa, None).

(** [getStrategy] returns [(strategy, nil)] or [(nil, err)]: a sum. *)
Definition getStrategy (program : Hpa) : strategy + error :=
  if CPUTarget program >? 0 then
    inl (setCPUTarget (CPUTarget program))
  else if Number (Minimum program) then
    match strconv.Atoi (Minimum program) with
    | inr err => inr err
    | inl num => inl (setMinimumNumber num)
    end
  else if Percentage (Minimum program) then
    match strconv.ParseFloat32 (dropLast (Minimum program)) with
    | inr err => inr err
    | inl percent => inl (setMinimumPercentage percent)
    end
  else if Multiply (Minimum program) then
    match strconv.ParseFloat32 (dropLast (Minimum program)) with
    | inr err => inr err
    | inl multiplier => inl (setMinimumMultiply multiplier)
    end
  else if Number (Maximum program) then
    match strconv.Atoi (Maximum program) with
    | inr err => inr err
    | inl num => inl (setMaximumNumber num)
    end
  else if Percentage (Maximum program) then
    match strconv.ParseFloat32 (dropLast (Maximum program)) with
    | inr err => inr err
    | inl percent => inl (setMaximumPercentage percent)
    end
  else if Multiply (Maximum program) then
    match strconv.ParseFloat32 (dropLast (Maximum program)) with
    | inr err => inr err
    | inl multiplier => inl (setMaximumMultiply multiplier)
    end
  else inr (errors.New "invalid arguments").

End Strategies.

(** ** Applying a strategy: [modifyHPA] and the loop of [Run] *)

Section Batch.
Context `{Platform}.

(** [options.DryRun] *)
Variable DryRun : bool.

(** The remote call [HorizontalPodAutoscalers(namespace).Update(ctx, hpa, ...)]
    of the client: the error it returns is the cluster's to decide. *)
Variable Update : HorizontalPodAutoscaler -> heap -> option error.

(** [modifyHPA]: the old bounds are read for the log line, the strategy is
    applied, the new bounds are read for the log line, and the record is
    sent unless the run is dry. *)
Definition modifyHPA (hpa : HorizontalPodAutoscaler) (update : strategy)
    : Go (HorizontalPodAutoscaler * option error) :=
  let oldMax := MaxReplicas hpa in
  oldMin <- load (MinReplicas hpa) ;;
  result <- update hpa ;;
  let hpa := fst result in
  match snd result with
  | Some err => ret (hpa, Some err)
  | None =>
      newMin <- load (MinReplicas hpa) ;;
      if negb DryRun then fun h => Returns ((hpa, Update hpa h), h)
      else ret (hpa, None)
  end.

(** [for _, hpa := range hpas { err := modifyHPA(...); listErrors = append(listErrors, err) }] *)
Fixpoint modifyEach (cal : strategy) (hpas : list HorizontalPodAutoscaler)
    : Go (list (option error)) :=
  match hpas with
  | [] => ret []
  | hpa :: rest =>
      result <- modifyHPA hpa cal ;;
      listErrors <- modifyEach cal rest ;;
      ret (snd result :: listErrors)
  end.

(** [Run] from the call of [getStrategy] on, for the autoscalers [hpas] that
    were fetched (the branch that only prints them is left out). *)
Definition Run (program : Hpa) (hpas : list HorizontalPodAutoscaler)
    : Go (option error) :=
  match getStrategy program with
  | inr err => ret (Some err)
  | inl cal =>
      listErrors <- modifyEach cal hpas ;;
      ret (errors.Join listErrors)
  end.

End Batch.

(** ** The gauge renderer of [program/output.go] *)

Module strings.
(** [strings.Repeat(s, count)] *)
Fixpoint Repeat (s : string) (count : nat) : string :=
  match count with
  | O => EmptyString
  | S n => String.append s (Repeat s n)
  end.
End strings.

Definition obind {A B} (m : outcome A) (k : A -> outcome B) : outcome B :=
  match m with
  | Returns a => k a
  | Panics p => Panics p
  end.

Notation "'let!' x := m 'in' k" := (obind m (fun x => k))
  (at level 10, x name, m at level 100, k at level 200).

(** [s[0:n]]: the bounds are checked. *)
Definition slice0 (s : string) (n : Z) : outcome string :=
  if (0 <=? n) && (n <=? len s) then Returns (substring 0 (Z.to_nat n) s)
  else Panics (SliceBoundsOutOfRange n).

(** [l[i]]: the index is checked. *)
Definition index {A} (l : list A) (i : Z) : outcome A :=
  if 0 <=? i then
    match l !! Z.to_nat i with
    | Some a => Returns a
    | None => Panics (IndexOutOfRange i)
    end
  else Panics (IndexOutOfRange i).

Module fmt.
(** [fmt.Sprint(n)] for an integer [n]: its decimal digits. *)
Definition Sprint (n : Z) : string :=
  if n =? 0 then "0" else NilEmpty.string_of_int (Z.to_int n).
End fmt.

Module sort.
Section Slice.
Context {A : Type} (less : A -> A -> bool).

(** One round of the insertion sort: [x], the next element of the slice,
    moves left past the elements of the sorted prefix that it is less than,
    and so comes to stand behind those that it is not less than. *)
Fixpoint insert (x : A) (sorted : list A) : list A :=
  match sorted with
  | [] => [x]
  | y :: rest => if less x y then x :: sorted else y :: insert x rest
  end.

(** [sort.Slice(l, less)] on a slice of at most 12 elements, which the
    library sorts by insertion, from left to right. *)
Definition Slice (l : list A) : list A :=
  fold_left (fun sorted x => insert x sorted) l [].
End Slice.
End sort.

Record Mark := {
  (** the field [Mark]: the text of the marker *)
  Label : string;
  (** position of the mark between 0 and max *)
  Postion : Z
}.

(** [mark == other] on the struct *)
Definition Mark_eqb (a b : Mark) : bool :=
  String.eqb (Label a) (Label b) && (Postion a =? Postion b).

Definition Max : Mark := {| Label := "|"; Postion := MaxInt |}.

(** [func(i, j int) bool { return marks[i].Postion < marks[j].Postion }] *)
Definition lessPostion (a b : Mark) : bool := Postion a <? Postion b.

Definition field : string := strings.Repeat "." 40.
Definition spaces : string := strings.Repeat " " (String.length field).

Section Renderer.
Context `{Platform}.

(** The body of [for _, mark := range marks], on the builder and [cur].
    [first] is [marks[0]]. *)
Definition markStep (max : Z) (scale : spec_float) (first : option Mark)
    (state : string * Z) (mark : Mark) : outcome (string * Z) :=
  let '(builder, cur) := state in
  let pos :=
    Float64.to_int
      (Float64.mul (Float64.div (Float64.of_int (Postion mark)) (Float64.of_int max))
                   scale) in
  if Postion mark >? max then Returns state
  else
    let chars := int (pos - cur) in
    if chars >? 0 then
      let! filler := slice0 field (int (chars - 1)) in
      Returns (String.append (String.append builder filler) (Label mark),
               int (int (cur + chars) + len (Label mark)))
    else
      match first with
      | Some m0 =>
          if Mark_eqb mark m0 then
            Returns (String.append builder (Label mark), int (cur + len (Label mark)))
          else Returns state
      | None => Panics (IndexOutOfRange 0)
      end.

Fixpoint markLoop (max : Z) (scale : spec_float) (first : option Mark)
    (marks : list Mark) (state : string * Z) : outcome (string * Z) :=
  match marks with
  | [] => Returns state
  | mark :: rest =>
      let! state' := markStep max scale first state mark in
      markLoop max scale first rest state'
  end.

(** The builder of [formatMarks] once the closing border is written, for
    marks that are sorted already. *)
Definition gauge (min max : Z) (marks : list Mark) : outcome string :=
  let builder := "|" in
  let scale := Float64.of_int (len field) in
  let leading := Float64.div (Float64.of_int min) (Float64.of_int max) in
  let ls := Float64.to_int (Float64.mul leading scale) in
  let! padding := slice0 spaces ls in
  let builder := String.append builder padding in
  let cur := ls in
  let! state := markLoop max scale (head marks) marks (builder, cur) in
  let builder := fst state in
  let chars := int (Float64.to_int scale - len builder) in
  let! filler := slice0 field chars in
  Returns (String.append (String.append builder filler) "| ").

Definition formatMarks (min max : Z) (marks : list Mark) : outcome string :=
  let marks := sort.Slice lessPostion marks in
  let! builder := gauge min max marks in
  let! last := index marks (Z.of_nat (List.length marks) - 1) in
  if Mark_eqb last Max then Returns (String.append builder (fmt.Sprint max))
  else Returns builder.

End Renderer.

(** ** Notions used in the statements *)

(** The minimum of a record: the cell its [MinReplicas] points to. *)
Definition minimumOf (hpa : HorizontalPodAutoscaler) (h : heap) : option Z :=
  match MinReplicas hpa with
  | Some l => h !! l
  | None => None
  end.

Section Values.
Context `{Platform}.

(** The value that a percentage sets, from the maximum before the update. *)
Definition percentOf (percent : spec_float) (maximum : Z) : Z :=
  Float64.to_int32
    (Float64.Ceil
       (Float64.mul (Float64.div percent (Float64.of_int 100))
                    (Float64.of_int maximum))).

(** The value that a multiplier sets, from the old value of the field. *)
Definition multipleOf (multiplier : spec_float) (old : Z) : Z :=
  Float64.to_int32 (Float64.mul (Float64.of_int old) multiplier).

End Values.

(** The mantissa and the exponent of [float64(n)] for an integer [n] that
    is not zero and has at most 52 bits: the bits of [n], moved up to fill
    53 places. *)
Definition mantissa (p : positive) : positive :=
  Pos.iter xO p (Z.to_pos (53 - Zpos (digits2_pos p))).
Definition exponent (p : positive) : Z := Zpos (digits2_pos p) - 53.

(** The float64 [1], as [100 / 100] evaluates. *)
Definition one : spec_float := S754_finite false 4503599627370496 (-52).

(** The float64 [100], as [ParseFloat("100", 32)] returns it. *)
Definition hundred : spec_float := S754_finite false 7036874417766400 (-46).

(** A field of the command is set when one of the three patterns matches. *)
Definition recognized (s : string) : bool :=
  Number s || Percentage s || Multiply s.

Section Resolution.
Context `{Platform}.

(** The seven ways in which [getStrategy] returns a strategy, each with the
    case of the switch that it comes from. *)
Inductive resolves (program : Hpa) : strategy -> Prop :=
  | resolves_cpu :
      0 < CPUTarget program ->
      resolves program (setCPUTarget (CPUTarget program))
  | resolves_minimum_number num :
      CPUTarget program <= 0 -> Number (Minimum program) = true ->
      strconv.Atoi (Minimum program) = inl num ->
      resolves program (setMinimumNumber num)
  | resolves_minimum_percentage percent :
      CPUTarget program <= 0 -> Percentage (Minimum program) = true ->
      strconv.ParseFloat32 (dropLast (Minimum program)) = inl percent ->
      resolves program (setMinimumPercentage percent)
  | resolves_minimum_multiply multiplier :
      CPUTarget program <= 0 -> Multiply (Minimum program) = true ->
      strconv.ParseFloat32 (dropLast (Minimum program)) = inl multiplier ->
      resolves program (setMinimumMultiply multiplier)
  | resolves_maximum_number num :
      CPUTarget program <= 0 -> recognized (Minimum program) = false ->
      Number (Maximum program) = true ->
      strconv.Atoi (Maximum program) = inl num ->
      resolves program (setMaximumNumber num)
  | resolves_maximum_percentage percent :
      CPUTarget program <= 0 -> recognized (Minimum program) = false ->
      Percentage (Maximum program) = true ->
      strconv.ParseFloat32 (dropLast (Maximum program)) = inl percent ->
      resolves program (setMaximumPercentage percent)
  | resolves_maximum_multiply multiplier :
      CPUTarget program <= 0 -> recognized (Minimum program) = false ->
      Multiply (Maximum program) = true ->
      strconv.ParseFloat32 (dropLast (Maximum program)) = inl multiplier ->
      resolves program (setMaximumMultiply multiplier).

End Resolution.

(** A minimum was written to the cell at [p]; the maximum follows it up. *)
Definition raised (p : pointer) (minimum : Z) (hpa : HorizontalPodAutoscaler) :=
  setMaxReplicas (if minimum >? MaxReplicas hpa then minimum else MaxReplicas hpa)
                 (setMinReplicas p hpa).

(** A maximum was written; the cell of the minimum follows it down. *)
Definition lowered (l : loc) (v maximum : Z) (h : heap) : heap :=
  if v >? maximum then <[l := maximum]> h else h.

(** A mark that the loop does not skip. *)
Definition inRange (max : Z) (mark : Mark) : bool := negb (Postion mark >? max).

(** A slice of marks in the order of their positions. *)
Fixpoint ascending (marks : list Mark) : Prop :=
  match marks with
  | [] => True
  | mark :: rest =>
      Forall (fun later => Postion mark <= Postion later) rest /\ ascending rest
  end.

(** ** The specification's wording, for comparison *)

(** [math.Round]: the nearest integer, halves away from zero.  The code
    never calls it; the specification names rounding for a multiplier. *)
Definition Round (x : spec_float) : spec_float :=
  match x with
  | S754_finite s m e =>
      let r := Z.shiftl (Zpos m~0 + Z.shiftl 1 (- e)) (e - 1) in
      if r =? 0 then S754_zero s else Float64.of_int (cond_Zopp s r)
  | _ => x
  end.

Section SpecValues.
Context `{Platform}.

(** "set the field to round(old_value_of_target_field * f)" *)
Definition spec_roundedMultipleOf (multiplier : spec_float) (old : Z) : Z :=
  Float64.to_int32 (Round (Float64.mul (Float64.of_int old) multiplier)).

End SpecValues.

(** "its label appears nowhere in the output string" is the negation of
    [occurs label output]. *)
Definition occurs (label output : string) : bool :=
  match String.index 0 label output with
  | Some _ => true
  | None => false
  end.

(** * Properties *)

(** ** The heap *)

Lemma load_cell (l : loc) (v : Z) (h : heap) :
  h !! l = Some v -> load (Some l) h = Returns (v, h).
Proof. intros Hl. unfold load. now rewrite Hl. Qed.

Lemma store_cell (l : loc) (v w : Z) (h : heap) :
  h !! l = Some v -> store (Some l) w h = Returns (tt, <[l := w]> h).
Proof. intros Hl. unfold store. now rewrite Hl. Qed.

Lemma lookup_stored (l : loc) (v w : Z) (h : heap) :
  h !! l = Some v -> <[l := w]> h !! l = Some w.
Proof.
  intros Hl. apply list_lookup_insert_eq. now apply lookup_lt_Some with v.
Qed.

Lemma lookup_fresh (v : Z) (h : heap) :
  (h ++ [v])%list !! List.length h = Some v.
Proof. now rewrite list_lookup_middle. Qed.

Lemma gtb_le (a b : Z) : (a >? b) = false <-> a <= b.
Proof. rewrite Z.gtb_ltb, Z.ltb_ge. reflexivity. Qed.

Lemma gtb_gt (a b : Z) : (a >? b) = true <-> b < a.
Proof. rewrite Z.gtb_ltb, Z.ltb_lt. reflexivity. Qed.

(** ** What the reconcilers and the closures compute *)

Lemma reconcileMax_cell hpa h l v :
  MinReplicas hpa = Some l -> h !! l = Some v ->
  reconcileMax hpa h =
    Returns (setMaxReplicas (if v >? MaxReplicas hpa then v else MaxReplicas hpa) hpa, h).
Proof.
  intros Hp Hl. unfold reconcileMax, bind. rewrite Hp, (load_cell _ _ _ Hl).
  destruct (v >? MaxReplicas hpa) eqn:Hgt.
  - now rewrite (load_cell _ _ _ Hl).
  - unfold ret. now destruct hpa.
Qed.

Lemma reconcileMin_cell hpa h l v :
  MinReplicas hpa = Some l -> h !! l = Some v ->
  reconcileMin hpa h =
    Returns (hpa, if v >? MaxReplicas hpa then <[l := MaxReplicas hpa]> h else h).
Proof.
  intros Hp Hl. unfold reconcileMin, bind. rewrite Hp, (load_cell _ _ _ Hl).
  destruct (v >? MaxReplicas hpa) eqn:Hgt; [|reflexivity].
  now rewrite (store_cell _ _ _ _ Hl).
Qed.

(** A minimum pointer that is nil (or, in the model, points to no cell)
    cannot be read. *)
Lemma load_nothing hpa h :
  minimumOf hpa h = None -> load (MinReplicas hpa) h = Panics NilPointerDereference.
Proof.
  unfold minimumOf, load. destruct (MinReplicas hpa) as [l|]; [|reflexivity].
  now intros ->.
Qed.

Lemma store_nothing hpa v h :
  minimumOf hpa h = None ->
  store (MinReplicas hpa) v h = Panics NilPointerDereference.
Proof.
  unfold minimumOf, store. destruct (MinReplicas hpa) as [l|]; [|reflexivity].
  now intros ->.
Qed.

Lemma nil_nothing hpa h : MinReplicas hpa = None -> minimumOf hpa h = None.
Proof. unfold minimumOf. now intros ->. Qed.

Lemma reconcileMax_nil hpa h :
  minimumOf hpa h = None -> reconcileMax hpa h = Panics NilPointerDereference.
Proof. intros Hp. unfold reconcileMax, bind. now rewrite (load_nothing _ _ Hp). Qed.

Lemma reconcileMin_nil hpa h :
  minimumOf hpa h = None -> reconcileMin hpa h = Panics NilPointerDereference.
Proof. intros Hp. unfold reconcileMin, bind. now rewrite (load_nothing _ _ Hp). Qed.

Section StrategyFacts.
Context `{Platform}.

Lemma setMinimumNumber_runs num hpa h :
  setMinimumNumber num hpa h =
    Returns ((raised (Some (List.length h)) (int32 num) hpa, None),
             (h ++ [int32 num])%list).
Proof.
  unfold setMinimumNumber, bind, addressOf.
  erewrite reconcileMax_cell; [reflexivity | reflexivity | apply lookup_fresh].
Qed.

Lemma setMinimumPercentage_runs percent hpa h l v :
  MinReplicas hpa = Some l -> h !! l = Some v ->
  setMinimumPercentage percent hpa h =
    Returns ((raised (Some l) (percentOf percent (MaxReplicas hpa)) hpa, None),
             <[l := percentOf percent (MaxReplicas hpa)]> h).
Proof.
  intros Hp Hl. unfold setMinimumPercentage, bind.
  rewrite Hp, (store_cell _ _ _ _ Hl).
  erewrite reconcileMax_cell; [| exact Hp | apply (lookup_stored _ _ _ _ Hl)].
  unfold ret, raised, percentOf. destruct hpa; simpl in *. now subst.
Qed.

Lemma setMinimumMultiply_runs multiplier hpa h l v :
  MinReplicas hpa = Some l -> h !! l = Some v ->
  setMinimumMultiply multiplier hpa h =
    Returns ((raised (Some (List.length h)) (multipleOf multiplier v) hpa, None),
             (h ++ [multipleOf multiplier v])%list).
Proof.
  intros Hp Hl. unfold setMinimumMultiply, bind.
  rewrite Hp, (load_cell _ _ _ Hl). unfold addressOf.
  erewrite reconcileMax_cell; [reflexivity | reflexivity | apply lookup_fresh].
Qed.

Lemma setMaximumNumber_runs num hpa h l v :
  MinReplicas hpa = Some l -> h !! l = Some v ->
  setMaximumNumber num hpa h =
    Returns ((setMaxReplicas (int32 num) hpa, None), lowered l v (int32 num) h).
Proof.
  intros Hp Hl. unfold setMaximumNumber, bind.
  erewrite reconcileMin_cell; [reflexivity | exact Hp | exact Hl].
Qed.

Lemma setMaximumPercentage_runs percent hpa h l v :
  MinReplicas hpa = Some l -> h !! l = Some v ->
  setMaximumPercentage percent hpa h =
    Returns ((setMaxReplicas (percentOf percent (MaxReplicas hpa)) hpa, None),
             lowered l v (percentOf percent (MaxReplicas hpa)) h).
Proof.
  intros Hp Hl. unfold setMaximumPercentage, bind.
  erewrite reconcileMin_cell; [reflexivity | exact Hp | exact Hl].
Qed.

Lemma setMaximumMultiply_runs multiplier hpa h l v :
  MinReplicas hpa = Some l -> h !! l = Some v ->
  setMaximumMultiply multiplier hpa h =
    Returns ((setMaxReplicas (multipleOf multiplier (MaxReplicas hpa)) hpa, None),
             lowered l v (multipleOf multiplier (MaxReplicas hpa)) h).
Proof.
  intros Hp Hl. unfold setMaximumMultiply, bind.
  erewrite reconcileMin_cell; [reflexivity | exact Hp | exact Hl].
Qed.

Lemma raised_ordered p minimum hpa : minimum <= MaxReplicas (raised p minimum hpa).
Proof.
  unfold raised; simpl. destruct (minimum >? MaxReplicas hpa) eqn:E; [lia|].
  now apply gtb_le.
Qed.

Lemma lowered_ordered l v maximum h :
  h !! l = Some v ->
  exists v', lowered l v maximum h !! l = Some v' /\ v' <= maximum
             /\ v' = (if v >? maximum then maximum else v).
Proof.
  intros Hl. unfold lowered. destruct (v >? maximum) eqn:E.
  - exists maximum. rewrite (lookup_stored _ _ _ _ Hl). repeat split; lia.
  - exists v. apply gtb_le in E. repeat split; [exact Hl | lia].
Qed.

End StrategyFacts.

(** ** The strategies on a record whose minimum pointer is nil *)

Section NilMinimum.
Context `{Platform}.

Lemma setMinimumPercentage_nil percent hpa h :
  minimumOf hpa h = None ->
  setMinimumPercentage percent hpa h = Panics NilPointerDereference.
Proof.
  intros Hp. unfold setMinimumPercentage, bind. now rewrite (store_nothing _ _ _ Hp).
Qed.

Lemma setMinimumMultiply_nil multiplier hpa h :
  minimumOf hpa h = None ->
  setMinimumMultiply multiplier hpa h = Panics NilPointerDereference.
Proof.
  intros Hp. unfold setMinimumMultiply, bind. now rewrite (load_nothing _ _ Hp).
Qed.

Lemma setMaximumNumber_nil num hpa h :
  minimumOf hpa h = None ->
  setMaximumNumber num hpa h = Panics NilPointerDereference.
Proof.
  intros Hp. unfold setMaximumNumber, bind. now rewrite reconcileMin_nil.
Qed.

Lemma setMaximumPercentage_nil percent hpa h :
  minimumOf hpa h = None ->
  setMaximumPercentage percent hpa h = Panics NilPointerDereference.
Proof.
  intros Hp. unfold setMaximumPercentage, bind. now rewrite reconcileMin_nil.
Qed.

Lemma setMaximumMultiply_nil multiplier hpa h :
  minimumOf hpa h = None ->
  setMaximumMultiply multiplier hpa h = Panics NilPointerDereference.
Proof.
  intros Hp. unfold setMaximumMultiply, bind. now rewrite reconcileMin_nil.
Qed.

Lemma setCPUTarget_runs target hpa h l v :
  TargetCPUUtilizationPercentage hpa = Some l -> h !! l = Some v ->
  setCPUTarget target hpa h = Returns ((hpa, None), <[l := int32 target]> h).
Proof.
  intros Hp Hl. unfold setCPUTarget, bind. now rewrite Hp, (store_cell _ _ _ _ Hl).
Qed.

End NilMinimum.

(** ** float64 arithmetic on small integers is exact *)

Lemma digits2_shifted (p k : positive) :
  Zpos (digits2_pos (Pos.iter xO p k)) = Zpos (digits2_pos p) + Zpos k.
Proof.
  induction k using Pos.peano_ind.
  - simpl. lia.
  - rewrite Pos.iter_succ. simpl digits2_pos. lia.
Qed.

Lemma shifted_value (p k : positive) :
  Zpos (Pos.iter xO p k) = Zpos p * 2 ^ Zpos k.
Proof.
  induction k using Pos.peano_ind.
  - simpl. lia.
  - rewrite Pos.iter_succ, Pos2Z.inj_xO, IHk, Pos2Z.inj_succ, Z.pow_succ_r by lia.
    lia.
Qed.

Lemma digits2_least (p : positive) : 2 ^ (Zpos (digits2_pos p) - 1) <= Zpos p.
Proof.
  induction p as [p IH | p IH |]; simpl digits2_pos.
  - rewrite Pos2Z.inj_succ. replace (Z.succ (Zpos (digits2_pos p)) - 1)
      with (Z.succ (Zpos (digits2_pos p) - 1)) by lia.
    rewrite Z.pow_succ_r by lia. lia.
  - rewrite Pos2Z.inj_succ. replace (Z.succ (Zpos (digits2_pos p)) - 1)
      with (Z.succ (Zpos (digits2_pos p) - 1)) by lia.
    rewrite Z.pow_succ_r by lia. lia.
  - reflexivity.
Qed.

Lemma digits2_small (p : positive) (n : Z) :
  0 < n -> Zpos p < 2 ^ n -> Zpos (digits2_pos p) <= n.
Proof.
  intros Hn Hp.
  destruct (Z_le_gt_dec (Zpos (digits2_pos p)) n) as [Hle | Hgt]; [exact Hle|].
  exfalso. pose proof (digits2_least p) as Hl.
  assert (2 ^ n <= 2 ^ (Zpos (digits2_pos p) - 1)) by (apply Z.pow_le_mono_r; lia).
  lia.
Qed.

Lemma shr_fexp_canonical (m : positive) (e : Z) :
  Zpos (digits2_pos m) = 53 -> -1074 <= e <= 971 ->
  shr_fexp 53 1024 (Zpos m) e loc_Exact =
    ({| shr_m := Zpos m; shr_r := false; shr_s := false |}, e).
Proof.
  intros Hd He. unfold shr_fexp.
  assert (Hf : fexp 53 1024 (Zdigits2 (Zpos m) + e) - e = 0).
  { change (Zdigits2 (Zpos m)) with (Zpos (digits2_pos m)). rewrite Hd.
    unfold fexp, emin. lia. }
  rewrite Hf. reflexivity.
Qed.

Lemma shr_fexp_shifted (m : positive) (e : Z) :
  Zpos (digits2_pos m) = 53 -> -1074 <= e <= 971 ->
  shr_fexp 53 1024 (Zpos (Pos.iter xO m 52)) (e - 52) loc_Exact =
    ({| shr_m := Zpos m; shr_r := false; shr_s := false |}, e).
Proof.
  intros Hd He. unfold shr_fexp.
  assert (Hf : fexp 53 1024 (Zdigits2 (Zpos (Pos.iter xO m 52)) + (e - 52))
               - (e - 52) = 52).
  { change (Zdigits2 (Zpos (Pos.iter xO m 52)))
      with (Zpos (digits2_pos (Pos.iter xO m 52))).
    rewrite digits2_shifted, Hd. unfold fexp, emin. lia. }
  rewrite Hf.
  transitivity
    (SpecFloat.iter_pos shr_1 52
       (shr_record_of_loc (Zpos (Pos.iter xO m 52)) loc_Exact),
     e - 52 + 52); [reflexivity|].
  apply f_equal2; [vm_compute; reflexivity | lia].
Qed.

(** The second half of [binary_round_aux], once the first shift has left a
    mantissa of 53 bits and nothing to round. *)
Lemma round_aux_finish (s : bool) (m : positive) (e : Z) (r : shr_record * Z) :
  Zpos (digits2_pos m) = 53 -> -1074 <= e <= 971 ->
  r = ({| shr_m := Zpos m; shr_r := false; shr_s := false |}, e) ->
  (let '(mrs', e') := r in
   let '(mrs'', e'') :=
     shr_fexp 53 1024
       (round_nearest_even (shr_m mrs') (loc_of_shr_record mrs')) e' loc_Exact in
   match shr_m mrs'' with
   | 0 => S754_zero s
   | Zpos m => if e'' <=? 1024 - 53 then S754_finite s m e'' else S754_infinity s
   | Zneg _ => S754_nan
   end) = S754_finite s m e.
Proof.
  intros Hd He ->.
  change (round_nearest_even _ _) with (Zpos m).
  rewrite (shr_fexp_canonical m e Hd He).
  change (shr_m _) with (Zpos m). cbv beta iota.
  replace (e <=? 1024 - 53) with true by (symmetry; apply Z.leb_le; lia).
  reflexivity.
Qed.

Lemma round_aux_canonical (s : bool) (m : positive) (e : Z) :
  Zpos (digits2_pos m) = 53 -> -1074 <= e <= 971 ->
  binary_round_aux 53 1024 s (Zpos m) e loc_Exact = S754_finite s m e.
Proof.
  intros Hd He. unfold binary_round_aux.
  apply round_aux_finish; [exact Hd | exact He |].
  apply shr_fexp_canonical; assumption.
Qed.

Lemma binary_round_small (s : bool) (p : positive) :
  Zpos (digits2_pos p) < 53 ->
  binary_round 53 1024 s p 0 = S754_finite s (mantissa p) (exponent p).
Proof.
  intros Hd. unfold mantissa, exponent.
  assert (Hd0 : 0 < Zpos (digits2_pos p)) by lia.
  unfold binary_round, shl_align.
  replace (fexp 53 1024 (Zpos (digits2_pos p) + 0)) with (Zpos (digits2_pos p) - 53)
    by (unfold fexp, emin; lia).
  replace (Zpos (digits2_pos p) - 53 - 0)
    with (Z.neg (Z.to_pos (53 - Zpos (digits2_pos p)))) by lia.
  apply round_aux_canonical; [|lia].
  rewrite digits2_shifted. lia.
Qed.

Lemma mantissa_digits (p : positive) :
  Zpos (digits2_pos p) < 53 -> Zpos (digits2_pos (mantissa p)) = 53.
Proof.
  intros Hd. unfold mantissa. rewrite digits2_shifted. lia.
Qed.

Lemma mantissa_value (p : positive) :
  Zpos (digits2_pos p) < 53 ->
  Zpos (mantissa p) = Zpos p * 2 ^ (- exponent p) /\ 0 < - exponent p.
Proof.
  intros Hd. unfold mantissa, exponent. rewrite shifted_value.
  split; [f_equal; f_equal|]; lia.
Qed.

Lemma mul_one_canonical (s : bool) (m : positive) (e : Z) :
  Zpos (digits2_pos m) = 53 -> -1074 <= e <= 971 ->
  Float64.mul one (S754_finite s m e) = S754_finite s m e.
Proof.
  intros Hd He.
  change (Float64.mul one (S754_finite s m e))
    with (binary_round_aux 53 1024 s (Zpos (Pos.iter xO m 52)) (-52 + e) loc_Exact).
  replace (-52 + e) with (e - 52) by lia.
  unfold binary_round_aux.
  apply round_aux_finish; [exact Hd | exact He |].
  apply shr_fexp_shifted; assumption.
Qed.

Lemma abs_digits (z : Z) :
  z <> 0 -> Z.abs z < 2 ^ 52 -> Zpos (digits2_pos (Z.to_pos (Z.abs z))) <= 52.
Proof.
  intros Hz Hb. apply digits2_small; [lia|]. rewrite Z2Pos.id; lia.
Qed.

Lemma of_int_small (z : Z) :
  z <> 0 -> Z.abs z < 2 ^ 52 ->
  Float64.of_int z =
    S754_finite (z <? 0) (mantissa (Z.to_pos (Z.abs z))) (exponent (Z.to_pos (Z.abs z))).
Proof.
  intros Hz Hb. pose proof (abs_digits z Hz Hb) as Hd.
  unfold Float64.of_int, binary_normalize, Float64.prec, Float64.emax.
  destruct z as [| p | p]; [congruence | |]; simpl Z.abs in *; simpl Z.to_pos in *;
    apply binary_round_small; lia.
Qed.

Lemma shiftl_mantissa (p : positive) :
  Zpos (digits2_pos p) < 53 ->
  Z.shiftl (Zpos (mantissa p)) (exponent p) = Zpos p /\
  Z.shiftl (Zneg (mantissa p)) (exponent p) = Zneg p.
Proof.
  intros Hd. destruct (mantissa_value p Hd) as [Hv Hk].
  remember (- exponent p) as k eqn:Ek.
  replace (exponent p) with (- k) by lia.
  rewrite !Z.shiftl_div_pow2, !Z.opp_involutive by lia.
  change (Zneg (mantissa p)) with (- Zpos (mantissa p)). rewrite Hv.
  assert (0 < 2 ^ k) by (apply Z.pow_pos_nonneg; lia).
  split.
  - apply Z.div_mul. lia.
  - replace (- (Zpos p * 2 ^ k)) with (Zneg p * 2 ^ k) by lia.
    apply Z.div_mul. lia.
Qed.

Lemma is_int32_bounds (z : Z) : is_int32 z = true <-> - 2 ^ 31 <= z <= 2 ^ 31 - 1.
Proof.
  unfold is_int32, MinInt32, MaxInt32.
  rewrite andb_true_iff, !Z.leb_le. reflexivity.
Qed.

(** [float64(n)] loses nothing of an [int32], and the way back finds it. *)
Lemma truncate_of_int (z : Z) :
  Z.abs z < 2 ^ 52 -> Float64.truncate (Float64.of_int z) = Some z.
Proof.
  intros Hb. destruct (Z.eq_dec z 0) as [-> | Hz]; [reflexivity|].
  rewrite (of_int_small z Hz Hb). unfold Float64.truncate.
  assert (Hd : Zpos (digits2_pos (Z.to_pos (Z.abs z))) < 53)
    by (pose proof (abs_digits z Hz Hb); lia).
  destruct (shiftl_mantissa _ Hd) as [Hp _]. rewrite Hp, Z2Pos.id by lia.
  f_equal. destruct (Z.ltb_spec z 0); simpl cond_Zopp; lia.
Qed.

Lemma Ceil_of_int (z : Z) :
  Z.abs z < 2 ^ 52 -> Float64.Ceil (Float64.of_int z) = Float64.of_int z.
Proof.
  intros Hb. destruct (Z.eq_dec z 0) as [-> | Hz]; [reflexivity|].
  rewrite (of_int_small z Hz Hb). unfold Float64.Ceil, Float64.ceiling.
  assert (Hd : Zpos (digits2_pos (Z.to_pos (Z.abs z))) < 53)
    by (pose proof (abs_digits z Hz Hb); lia).
  destruct (shiftl_mantissa _ Hd) as [Hp Hn]. rewrite Hp, Hn.
  assert (Hc : (if z <? 0 then - Zpos (Z.to_pos (Z.abs z))
                else - Zneg (Z.to_pos (Z.abs z))) = z).
  { change (Zneg (Z.to_pos (Z.abs z))) with (- Zpos (Z.to_pos (Z.abs z))).
    rewrite Z2Pos.id by lia. destruct (Z.ltb_spec z 0); lia. }
  rewrite Hc. destruct (Z.eqb_spec z 0); [contradiction|].
  apply (of_int_small z Hz Hb).
Qed.

Lemma mul_one_of_int (z : Z) :
  Z.abs z < 2 ^ 52 -> Float64.mul one (Float64.of_int z) = Float64.of_int z.
Proof.
  intros Hb. destruct (Z.eq_dec z 0) as [-> | Hz]; [reflexivity|].
  rewrite (of_int_small z Hz Hb).
  pose proof (abs_digits z Hz Hb) as Hd.
  apply mul_one_canonical.
  - apply mantissa_digits. lia.
  - unfold exponent. lia.
Qed.

Lemma hundred_percent `{Platform} (maximum : Z) :
  is_int32 maximum = true -> percentOf hundred maximum = maximum.
Proof.
  intros Hr. pose proof (proj1 (is_int32_bounds maximum) Hr) as Hb.
  assert (Hs : Z.abs maximum < 2 ^ 52) by lia.
  unfold percentOf.
  change (Float64.div hundred (Float64.of_int 100)) with one.
  rewrite (mul_one_of_int _ Hs), (Ceil_of_int _ Hs).
  unfold Float64.to_int32. now rewrite (truncate_of_int _ Hs), Hr.
Qed.

(** ** The three patterns exclude one another *)

Lemma classThen_not_digits class final s :
  isDigit final = false ->
  regexp.classThen class final s = true -> all_chars isDigit s = false.
Proof.
  intros Hf. induction s as [| c rest IH]; [discriminate|].
  simpl. intros Hm. apply andb_true_iff in Hm as [_ Hm].
  destruct rest as [| c' rest'].
  - discriminate.
  - destruct rest' as [| c'' rest''].
    + apply Ascii.eqb_eq in Hm. subst c'. simpl. rewrite Hf.
      now rewrite andb_false_r.
    + rewrite (IH Hm). apply andb_false_r.
Qed.

Lemma classThen_final class final final' s :
  final <> final' ->
  regexp.classThen class final s = true -> regexp.classThen class final' s = false.
Proof.
  intros Hne. induction s as [| c rest IH]; [discriminate|].
  simpl. intros Hm. apply andb_true_iff in Hm as [Hc Hm]. rewrite Hc. simpl.
  destruct rest as [| c' rest'].
  - discriminate.
  - destruct rest' as [| c'' rest''].
    + apply Ascii.eqb_eq in Hm. subst c'. now apply Ascii.eqb_neq.
    + now apply IH.
Qed.

Lemma Number_digits s : Number s = true -> all_chars isDigit s = true.
Proof. destruct s; [discriminate | trivial]. Qed.

Lemma Percentage_not_Number s : Percentage s = true -> Number s = false.
Proof.
  intros Hp. destruct (Number s) eqn:Hn; [|reflexivity].
  apply Number_digits in Hn.
  now rewrite (classThen_not_digits _ "%"%char s eq_refl Hp) in Hn.
Qed.

Lemma Multiply_not_Number s : Multiply s = true -> Number s = false.
Proof.
  intros Hp. destruct (Number s) eqn:Hn; [|reflexivity].
  apply Number_digits in Hn.
  now rewrite (classThen_not_digits _ "x"%char s eq_refl Hp) in Hn.
Qed.

Lemma Multiply_not_Percentage s : Multiply s = true -> Percentage s = false.
Proof. apply classThen_final. discriminate. Qed.

(** ** [getStrategy], case by case *)

Section ResolutionFacts.
Context `{Platform}.

Lemma getStrategy_resolves program update :
  getStrategy program = inl update -> resolves program update.
Proof.
  unfold getStrategy. intros Hg.
  destruct (CPUTarget program >? 0) eqn:Hc.
  { injection Hg as <-. apply resolves_cpu. now apply gtb_gt. }
  apply gtb_le in Hc.
  destruct (Number (Minimum program)) eqn:Hn1.
  { destruct (strconv.Atoi (Minimum program)) eqn:Ha; [|discriminate].
    injection Hg as <-. now apply resolves_minimum_number. }
  destruct (Percentage (Minimum program)) eqn:Hp1.
  { destruct (strconv.ParseFloat32 (dropLast (Minimum program))) eqn:Ha; [|discriminate].
    injection Hg as <-. now apply resolves_minimum_percentage. }
  destruct (Multiply (Minimum program)) eqn:Hm1.
  { destruct (strconv.ParseFloat32 (dropLast (Minimum program))) eqn:Ha; [|discriminate].
    injection Hg as <-. now apply resolves_minimum_multiply. }
  assert (Hr : recognized (Minimum program) = false)
    by (unfold recognized; now rewrite Hn1, Hp1, Hm1).
  destruct (Number (Maximum program)) eqn:Hn2.
  { destruct (strconv.Atoi (Maximum program)) eqn:Ha; [|discriminate].
    injection Hg as <-. now apply resolves_maximum_number. }
  destruct (Percentage (Maximum program)) eqn:Hp2.
  { destruct (strconv.ParseFloat32 (dropLast (Maximum program))) eqn:Ha; [|discriminate].
    injection Hg as <-. now apply resolves_maximum_percentage. }
  destruct (Multiply (Maximum program)) eqn:Hm2; [|discriminate].
  destruct (strconv.ParseFloat32 (dropLast (Maximum program))) eqn:Ha; [|discriminate].
  injection Hg as <-. now apply resolves_maximum_multiply.
Qed.

Lemma recognized_false s :
  recognized s = false ->
  Number s = false /\ Percentage s = false /\ Multiply s = false.
Proof.
  unfold recognized. intros Hr.
  apply orb_false_iff in Hr as [Hr Hm]. apply orb_false_iff in Hr as [Hn Hp].
  auto.
Qed.

End ResolutionFacts.

(** ** The cases of [getStrategy] for a percentage and a multiplier *)

Section PatternCases.
Context `{Platform}.

Lemma getStrategy_minimum_percentage program :
  CPUTarget program <= 0 -> Percentage (Minimum program) = true ->
  getStrategy program =
    match strconv.ParseFloat32 (dropLast (Minimum program)) with
    | inr err => inr err
    | inl percent => inl (setMinimumPercentage percent)
    end.
Proof.
  intros Hc Hp. apply gtb_le in Hc. unfold getStrategy.
  now rewrite Hc, (Percentage_not_Number _ Hp), Hp.
Qed.

Lemma getStrategy_minimum_multiply program :
  CPUTarget program <= 0 -> Multiply (Minimum program) = true ->
  getStrategy program =
    match strconv.ParseFloat32 (dropLast (Minimum program)) with
    | inr err => inr err
    | inl multiplier => inl (setMinimumMultiply multiplier)
    end.
Proof.
  intros Hc Hm. apply gtb_le in Hc. unfold getStrategy.
  now rewrite Hc, (Multiply_not_Number _ Hm), (Multiply_not_Percentage _ Hm), Hm.
Qed.

Lemma getStrategy_maximum_percentage program :
  CPUTarget program <= 0 -> recognized (Minimum program) = false ->
  Percentage (Maximum program) = true ->
  getStrategy program =
    match strconv.ParseFloat32 (dropLast (Maximum program)) with
    | inr err => inr err
    | inl percent => inl (setMaximumPercentage percent)
    end.
Proof.
  intros Hc Hr Hp. apply gtb_le in Hc. unfold getStrategy.
  destruct (recognized_false _ Hr) as (-> & -> & ->).
  now rewrite Hc, (Percentage_not_Number _ Hp), Hp.
Qed.

Lemma getStrategy_maximum_multiply program :
  CPUTarget program <= 0 -> recognized (Minimum program) = false ->
  Multiply (Maximum program) = true ->
  getStrategy program =
    match strconv.ParseFloat32 (dropLast (Maximum program)) with
    | inr err => inr err
    | inl multiplier => inl (setMaximumMultiply multiplier)
    end.
Proof.
  intros Hc Hr Hm. apply gtb_le in Hc. unfold getStrategy.
  destruct (recognized_false _ Hr) as (-> & -> & ->).
  now rewrite Hc, (Multiply_not_Number _ Hm), (Multiply_not_Percentage _ Hm), Hm.
Qed.

(** [int32(x)] discards the fraction of [x]: the magnitude is divided with
    the remainder dropped, and the sign is put back. *)
Lemma to_int32_truncates s m e :
  let z := cond_Zopp s (if 0 <=? e then Zpos m * 2 ^ e else Zpos m / 2 ^ (- e)) in
  is_int32 z = true -> Float64.to_int32 (S754_finite s m e) = z.
Proof.
  intros z Hz. unfold Float64.to_int32, Float64.truncate.
  assert (Hs : Z.shiftl (Zpos m) e
               = (if 0 <=? e then Zpos m * 2 ^ e else Zpos m / 2 ^ (- e))).
  { destruct (Z.leb_spec 0 e).
    - now apply Z.shiftl_mul_pow2.
    - apply Z.shiftl_div_pow2. lia. }
  rewrite Hs. fold z. now rewrite Hz.
Qed.

End PatternCases.

(** ** Every resolved update of a bound, run on a record *)

Section Updates.
Context `{Platform}.

Lemma raised_outcome p minimum hpa (h : heap) :
  (match p with Some l => h !! l | None => None end) = Some minimum ->
  minimumOf (raised p minimum hpa) h = Some minimum /\
  TargetCPUUtilizationPercentage (raised p minimum hpa)
    = TargetCPUUtilizationPercentage hpa /\
  MaxReplicas (raised p minimum hpa)
    = (if minimum >? MaxReplicas hpa then minimum else MaxReplicas hpa).
Proof. intros Hp. unfold minimumOf, raised. simpl. auto. Qed.

Lemma recognized_Number s : Number s = true -> recognized s = true.
Proof. unfold recognized. now intros ->. Qed.

Lemma recognized_Percentage s : Percentage s = true -> recognized s = true.
Proof. unfold recognized. intros ->. now rewrite orb_true_r. Qed.

Lemma recognized_Multiply s : Multiply s = true -> recognized s = true.
Proof. unfold recognized. intros ->. now rewrite orb_true_r. Qed.

(** What a resolved strategy for the minimum or the maximum does to a record
    whose minimum is behind a valid pointer: it returns without an error;
    when the minimum was the target the maximum is the larger of the old
    maximum and the new minimum, and when the maximum was the target the
    minimum is the smaller of the old minimum and the new maximum, in the
    same cell. *)
Lemma resolved_update_runs program update hpa h l v :
  resolves program update -> CPUTarget program <= 0 ->
  MinReplicas hpa = Some l -> h !! l = Some v ->
  exists hpa' h' minimum,
    update hpa h = Returns ((hpa', None), h') /\
    minimumOf hpa' h' = Some minimum /\
    TargetCPUUtilizationPercentage hpa' = TargetCPUUtilizationPercentage hpa /\
    (if recognized (Minimum program)
     then MaxReplicas hpa' = (if minimum >? MaxReplicas hpa then minimum else MaxReplicas hpa)
     else minimum = (if v >? MaxReplicas hpa' then MaxReplicas hpa' else v) /\
          MinReplicas hpa' = MinReplicas hpa).
Proof.
  intros Hres Hc Hp Hl.
  destruct Hres as [Hpos | num _ Hn Ha | percent _ Hn Ha | multiplier _ Hn Ha
                    | num _ Hr Hn Ha | percent _ Hr Hn Ha | multiplier _ Hr Hn Ha].
  - lia.
  - rewrite (recognized_Number _ Hn), setMinimumNumber_runs.
    eexists _, _, _. split; [reflexivity|].
    apply raised_outcome, lookup_fresh.
  - rewrite (recognized_Percentage _ Hn), (setMinimumPercentage_runs _ _ _ _ _ Hp Hl).
    eexists _, _, _. split; [reflexivity|].
    apply raised_outcome, (lookup_stored _ _ _ _ Hl).
  - rewrite (recognized_Multiply _ Hn), (setMinimumMultiply_runs _ _ _ _ _ Hp Hl).
    eexists _, _, _. split; [reflexivity|].
    apply raised_outcome, lookup_fresh.
  - rewrite Hr, (setMaximumNumber_runs _ _ _ _ _ Hp Hl).
    destruct (lowered_ordered l v (int32 num) h Hl) as (v' & Hv' & _ & Ev').
    exists (setMaxReplicas (int32 num) hpa), (lowered l v (int32 num) h), v'.
    unfold minimumOf. simpl. rewrite Hp. auto.
  - rewrite Hr, (setMaximumPercentage_runs _ _ _ _ _ Hp Hl).
    destruct (lowered_ordered l v (percentOf percent (MaxReplicas hpa)) h Hl)
      as (v' & Hv' & _ & Ev').
    eexists _, _, v'. split; [reflexivity|].
    unfold minimumOf. simpl. rewrite Hp. auto.
  - rewrite Hr, (setMaximumMultiply_runs _ _ _ _ _ Hp Hl).
    destruct (lowered_ordered l v (multipleOf multiplier (MaxReplicas hpa)) h Hl)
      as (v' & Hv' & _ & Ev').
    eexists _, _, v'. split; [reflexivity|].
    unfold minimumOf. simpl. rewrite Hp. auto.
Qed.

End Updates.

(** ** The insertion sort keeps the order and commutes with filtering *)

Section Sorting.

Lemma insert_Forall (Q : Mark -> Prop) x l :
  Q x -> Forall Q l -> Forall Q (sort.insert lessPostion x l).
Proof.
  intros Hx Hl. induction Hl as [| y rest Hy Hrest IH]; simpl.
  - now constructor.
  - destruct (lessPostion x y); repeat constructor; assumption.
Qed.

Lemma insert_ascending x l :
  ascending l -> ascending (sort.insert lessPostion x l).
Proof.
  induction l as [| y rest IH]; simpl.
  - intros _. split; [constructor | exact I].
  - intros [Hy Hrest]. unfold lessPostion at 1.
    destruct (Z.ltb_spec (Postion x) (Postion y)) as [Hlt | Hge]; simpl.
    + split; [|split; assumption]. constructor; [lia|].
      eapply Forall_impl; [exact Hy|]. simpl. intros later Hl. lia.
    + split; [|now apply IH]. now apply insert_Forall.
Qed.

Lemma Slice_ascending_from acc l :
  ascending acc ->
  ascending (fold_left (fun sorted x => sort.insert lessPostion x sorted) l acc).
Proof.
  revert acc. induction l as [| x l IH]; simpl; intros acc Hacc; [exact Hacc|].
  apply IH. now apply insert_ascending.
Qed.

Lemma Slice_ascending l : ascending (sort.Slice lessPostion l).
Proof. apply Slice_ascending_from. exact I. Qed.

Lemma insert_first x l :
  Forall (fun later => Postion x < Postion later) l ->
  sort.insert lessPostion x l = x :: l.
Proof.
  intros Hl. destruct Hl as [| y rest Hy _]; simpl; [reflexivity|].
  unfold lessPostion. now rewrite (proj2 (Z.ltb_lt _ _) Hy).
Qed.

Lemma Forall_filtered (Q : Mark -> Prop) (keep : Mark -> bool) l :
  Forall Q l -> Forall Q (List.filter keep l).
Proof.
  intros Hl. induction Hl as [| y rest Hy _ IH]; simpl; [constructor|].
  destruct (keep y); [constructor|]; assumption.
Qed.

Lemma insert_filter (keep : Mark -> bool) x l :
  ascending l ->
  List.filter keep (sort.insert lessPostion x l)
  = if keep x then sort.insert lessPostion x (List.filter keep l)
    else List.filter keep l.
Proof.
  induction l as [| y rest IH]; simpl.
  - intros _. now destruct (keep x).
  - intros [Hy Hrest]. unfold lessPostion at 1.
    destruct (Z.ltb_spec (Postion x) (Postion y)) as [Hlt | Hge].
    + change (List.filter keep (x :: y :: rest))
        with (if keep x then x :: List.filter keep (y :: rest)
              else List.filter keep (y :: rest)).
      destruct (keep x); [|reflexivity].
      symmetry. apply insert_first, Forall_filtered. constructor; [exact Hlt|].
      eapply Forall_impl; [exact Hy|]. simpl. intros later Hl. lia.
    + simpl. rewrite (IH Hrest).
      destruct (keep y), (keep x); try reflexivity.
      simpl. replace (lessPostion x y) with false; [reflexivity|].
      symmetry. now apply Z.ltb_ge.
Qed.

Lemma Slice_filter_from (keep : Mark -> bool) acc l :
  ascending acc ->
  List.filter keep (fold_left (fun sorted x => sort.insert lessPostion x sorted) l acc)
  = fold_left (fun sorted x => sort.insert lessPostion x sorted)
      (List.filter keep l) (List.filter keep acc).
Proof.
  revert acc. induction l as [| x l IH]; simpl; intros acc Hacc; [reflexivity|].
  rewrite (IH _ (insert_ascending x acc Hacc)), (insert_filter keep x acc Hacc).
  now destruct (keep x).
Qed.

Lemma Slice_filter (keep : Mark -> bool) l :
  List.filter keep (sort.Slice lessPostion l)
  = sort.Slice lessPostion (List.filter keep l).
Proof. apply (Slice_filter_from keep [] l). exact I. Qed.

(** The first of the marks in range is the first mark, when there is one. *)
Lemma head_inRange max l :
  ascending l -> List.filter (inRange max) l <> [] ->
  head (List.filter (inRange max) l) = head l.
Proof.
  destruct l as [| x rest]; simpl; [congruence|]. intros [Hx _] Hne.
  destruct (inRange max x) eqn:Ex; [reflexivity|]. exfalso. apply Hne.
  clear Hne. induction Hx as [| y rest Hy _ IH]; simpl; [reflexivity|].
  assert (Ey : inRange max y = false).
  { unfold inRange in *. apply negb_false_iff in Ex. apply gtb_gt in Ex.
    apply negb_false_iff. apply gtb_gt. lia. }
  now rewrite Ey.
Qed.

End Sorting.

(** ** The loop of [formatMarks] skips what is out of range *)

Section Skipping.
Context `{Platform}.

Lemma markStep_skips max scale first state mark :
  inRange max mark = false -> markStep max scale first state mark = Returns state.
Proof.
  unfold inRange, markStep. intros Hr. apply negb_false_iff in Hr.
  destruct state as [builder cur]. now rewrite Hr.
Qed.

Lemma markLoop_filter max scale first marks state :
  markLoop max scale first marks state
  = markLoop max scale first (List.filter (inRange max) marks) state.
Proof.
  revert state. induction marks as [| mark rest IH]; intros state; [reflexivity|].
  simpl. destruct (inRange max mark) eqn:Er.
  - simpl. destruct (markStep max scale first state mark); simpl; [apply IH | reflexivity].
  - rewrite (markStep_skips _ _ _ _ _ Er). simpl. apply IH.
Qed.

Lemma markLoop_inRange max scale marks state :
  ascending marks ->
  markLoop max scale (head marks) marks state
  = markLoop max scale (head (List.filter (inRange max) marks))
      (List.filter (inRange max) marks) state.
Proof.
  intros Ha. rewrite markLoop_filter.
  destruct (List.filter (inRange max) marks) as [| mark rest] eqn:Ef; [reflexivity|].
  rewrite <- Ef, (head_inRange max marks Ha); [reflexivity|]. now rewrite Ef.
Qed.

Lemma gauge_inRange min max marks marks' :
  List.filter (inRange max) marks = List.filter (inRange max) marks' ->
  gauge min max (sort.Slice lessPostion marks)
  = gauge min max (sort.Slice lessPostion marks').
Proof.
  intros Hf. unfold gauge.
  destruct (slice0 spaces _) as [padding|]; [|reflexivity]. cbn [obind].
  rewrite (markLoop_inRange max _ (sort.Slice lessPostion marks) _
             (Slice_ascending marks)).
  rewrite (markLoop_inRange max _ (sort.Slice lessPostion marks') _
             (Slice_ascending marks')).
  now rewrite !Slice_filter, Hf.
Qed.

End Skipping.

Lemma insert_length (x : Mark) l :
  List.length (sort.insert lessPostion x l) = S (List.length l).
Proof.
  induction l as [| y rest IH]; simpl; [reflexivity|].
  destruct (lessPostion x y); simpl; [reflexivity | now rewrite IH].
Qed.

Lemma Slice_length_from acc (l : list Mark) :
  List.length (fold_left (fun sorted x => sort.insert lessPostion x sorted) l acc)
  = (List.length l + List.length acc)%nat.
Proof.
  revert acc. induction l as [| x l IH]; simpl; intros acc; [reflexivity|].
  rewrite IH, insert_length. lia.
Qed.

Lemma index_last (l : list Mark) :
  l <> [] -> exists last, index l (Z.of_nat (List.length l) - 1) = Returns last.
Proof.
  intros Hne. unfold index.
  assert (0 < List.length l)%nat by (destruct l; [congruence | simpl; lia]).
  replace (0 <=? Z.of_nat (List.length l) - 1) with true
    by (symmetry; apply Z.leb_le; lia).
  destruct (lookup_lt_is_Some_2 l (Z.to_nat (Z.of_nat (List.length l) - 1)))
    as [last Hl]; [lia|].
  exists last. now rewrite Hl.
Qed.

(** * The claims *)

(** C1.  Let [getStrategy] resolve a strategy for the minimum or the
    maximum (absolute, percentage or multiplier).  On every record whose
    minimum is behind a valid pointer the strategy returns, without an
    error; and whenever it returns, on any record at all, the record it
    leaves satisfies minimum <= maximum.  Nothing is asked of the numbers: a
    multiplier 0, a percentage 0 and a maximum 0 are covered, and so is a
    record that broke the order before the update. *)
Theorem minimum_le_maximum_after_update `{Platform}
    (program : Hpa) (update : strategy) :
  CPUTarget program <= 0 ->
  getStrategy program = inl update ->
  (forall hpa h l v,
     MinReplicas hpa = Some l -> h !! l = Some v ->
     exists hpa' h', update hpa h = Returns ((hpa', None), h')) /\
  (forall hpa h hpa' err h',
     update hpa h = Returns ((hpa', err), h') ->
     exists minimum,
       minimumOf hpa' h' = Some minimum /\ minimum <= MaxReplicas hpa').
Proof.
  intros Hc Hg. pose proof (getStrategy_resolves _ _ Hg) as Hres.
  assert (Hvalid : forall hpa h l v,
            MinReplicas hpa = Some l -> h !! l = Some v ->
            exists hpa' h' minimum,
              update hpa h = Returns ((hpa', None), h') /\
              minimumOf hpa' h' = Some minimum /\ minimum <= MaxReplicas hpa').
  { intros hpa h l v Hp Hl.
    destruct (resolved_update_runs program update hpa h l v Hres Hc Hp Hl)
      as (hpa' & h' & minimum & Hrun & Hmin & _ & Hcase).
    exists hpa', h', minimum. split; [exact Hrun|]. split; [exact Hmin|].
    destruct (recognized (Minimum program)).
    - rewrite Hcase. destruct (minimum >? MaxReplicas hpa) eqn:E; [lia|].
      now apply gtb_le.
    - destruct Hcase as [Hcase _].
      destruct (v >? MaxReplicas hpa') eqn:E; [lia|]. apply gtb_le in E. lia. }
  split.
  - intros hpa h l v Hp Hl.
    destruct (Hvalid hpa h l v Hp Hl) as (hpa' & h' & _ & Hrun & _). eauto.
  - intros hpa h hpa' err h' Hrun.
    destruct (minimumOf hpa h) as [v|] eqn:Ev.
    + unfold minimumOf in Ev. destruct (MinReplicas hpa) as [l|] eqn:Hp; [|discriminate].
      destruct (Hvalid hpa h l v Hp Ev) as (hpa'' & h'' & minimum & Hrun' & Hmin & Hle).
      rewrite Hrun' in Hrun. injection Hrun as <- _ <-. eauto.
    + destruct Hres as [Hpos | num _ Hn Ha | percent _ Hn Ha | multiplier _ Hn Ha
                        | num _ Hr Hn Ha | percent _ Hr Hn Ha | multiplier _ Hr Hn Ha].
      * lia.
      * rewrite setMinimumNumber_runs in Hrun. injection Hrun as <- _ <-.
        exists (int32 num). split; [|apply raised_ordered].
        apply raised_outcome, lookup_fresh.
      * now rewrite (setMinimumPercentage_nil _ _ _ Ev) in Hrun.
      * now rewrite (setMinimumMultiply_nil _ _ _ Ev) in Hrun.
      * now rewrite (setMaximumNumber_nil _ _ _ Ev) in Hrun.
      * now rewrite (setMaximumPercentage_nil _ _ _ Ev) in Hrun.
      * now rewrite (setMaximumMultiply_nil _ _ _ Ev) in Hrun.
Qed.

(** The multiplier "0x" on the maximum of a record with maximum 0 and
    minimum 3: the strategy returns, and leaves maximum 0 and minimum 0. *)
Lemma minimum_le_maximum_after_update_witness :
  let hpa := {| MinReplicas := Some 0%nat; MaxReplicas := 0;
                TargetCPUUtilizationPercentage := None |} in
  setMaximumMultiply (S754_zero false) hpa [3] = Returns ((hpa, None), [0]) /\
  exists minimum, minimumOf hpa [0] = Some minimum /\ minimum <= MaxReplicas hpa.
Proof.
  split; [reflexivity|].
  exact (proj2 (minimum_le_maximum_after_update
                  {| Minimum := ""; Maximum := "0x"; CPUTarget := 0 |}
                  (setMaximumMultiply (S754_zero false))
                  ltac:(simpl; lia) eq_refl)
               {| MinReplicas := Some 0%nat; MaxReplicas := 0;
                  TargetCPUUtilizationPercentage := None |} [3]
               {| MinReplicas := Some 0%nat; MaxReplicas := 0;
                  TargetCPUUtilizationPercentage := None |} None [0]
               eq_refl).
Defined.

(** C2, as the code has it.  A multiplier "fx" sets its field to the float64
    product of the old value of the field and f with the fraction discarded
    ([int32] of the product, not the nearest integer): on the minimum,
    minimum becomes [multipleOf f old_minimum] and the maximum is raised to
    it when it was smaller; on the maximum, maximum becomes
    [multipleOf f old_maximum] and a minimum that exceeds the new maximum is
    lowered to equal it exactly.  [multipleOf] is the magnitude of the
    product divided with the remainder dropped, with the sign of the
    product. *)
Theorem multiplier_sets_truncated_product `{Platform}
    (program : Hpa) (update : strategy) (hpa : HorizontalPodAutoscaler)
    (h : heap) (l : loc) (v : Z) :
  CPUTarget program <= 0 -> getStrategy program = inl update ->
  MinReplicas hpa = Some l -> h !! l = Some v ->
  (Multiply (Minimum program) = true ->
     exists multiplier hpa' h',
       strconv.ParseFloat32 (dropLast (Minimum program)) = inl multiplier /\
       update hpa h = Returns ((hpa', None), h') /\
       minimumOf hpa' h' = Some (multipleOf multiplier v) /\
       MaxReplicas hpa'
       = (if multipleOf multiplier v >? MaxReplicas hpa
          then multipleOf multiplier v else MaxReplicas hpa)) /\
  (recognized (Minimum program) = false -> Multiply (Maximum program) = true ->
     exists multiplier hpa' h',
       strconv.ParseFloat32 (dropLast (Maximum program)) = inl multiplier /\
       update hpa h = Returns ((hpa', None), h') /\
       MaxReplicas hpa' = multipleOf multiplier (MaxReplicas hpa) /\
       minimumOf hpa' h'
       = Some (if v >? MaxReplicas hpa' then MaxReplicas hpa' else v)) /\
  (forall multiplier old s m e,
     Float64.mul (Float64.of_int old) multiplier = S754_finite s m e ->
     let z := cond_Zopp s (if 0 <=? e then Zpos m * 2 ^ e else Zpos m / 2 ^ (- e)) in
     is_int32 z = true -> multipleOf multiplier old = z).
Proof.
  intros Hc Hg Hp Hl. split; [|split].
  - intros Hm. rewrite (getStrategy_minimum_multiply _ Hc Hm) in Hg.
    destruct (strconv.ParseFloat32 (dropLast (Minimum program))) as [multiplier|];
      [|discriminate].
    injection Hg as <-. exists multiplier.
    rewrite (setMinimumMultiply_runs multiplier hpa h l v Hp Hl).
    eexists _, _. split; [reflexivity|]. split; [reflexivity|].
    split; [|reflexivity]. unfold minimumOf. simpl. apply lookup_fresh.
  - intros Hr Hm. rewrite (getStrategy_maximum_multiply _ Hc Hr Hm) in Hg.
    destruct (strconv.ParseFloat32 (dropLast (Maximum program))) as [multiplier|];
      [|discriminate].
    injection Hg as <-. exists multiplier.
    rewrite (setMaximumMultiply_runs multiplier hpa h l v Hp Hl).
    eexists _, _. split; [reflexivity|]. split; [reflexivity|].
    split; [reflexivity|]. unfold minimumOf. simpl. rewrite Hp.
    destruct (lowered_ordered l v (multipleOf multiplier (MaxReplicas hpa)) h Hl)
      as (v' & Hv' & _ & ->). exact Hv'.
  - intros multiplier old s m e Hx z Hz. unfold multipleOf. rewrite Hx.
    now apply to_int32_truncates.
Qed.

(** The multiplier "2.5x" on the maximum of a record with bounds 9 and 3. *)
Lemma multiplier_sets_truncated_product_witness :
  exists multiplier hpa' h',
    strconv.ParseFloat32 (dropLast "2.5x") = inl multiplier /\
    setMaximumMultiply (S754_finite false 5629499534213120 (-51))
      {| MinReplicas := Some 0%nat; MaxReplicas := 3;
         TargetCPUUtilizationPercentage := None |} [9]
    = Returns ((hpa', None), h') /\
    MaxReplicas hpa' = multipleOf multiplier 3 /\
    minimumOf hpa' h' = Some (if 9 >? MaxReplicas hpa' then MaxReplicas hpa' else 9).
Proof.
  apply (proj1 (proj2 (multiplier_sets_truncated_product
                  {| Minimum := ""; Maximum := "2.5x"; CPUTarget := 0 |}
                  (setMaximumMultiply (S754_finite false 5629499534213120 (-51)))
                  {| MinReplicas := Some 0%nat; MaxReplicas := 3;
                     TargetCPUUtilizationPercentage := None |} [9] 0%nat 9
                  ltac:(simpl; lia) eq_refl eq_refl eq_refl)));
    reflexivity.
Defined.

(** C2, as it is stated, fails: for "1.75x" on a maximum of 1 the code
    leaves the maximum at 1, and the rounded product is 2. *)
Lemma multiplier_rounding_counterexample :
  exists update multiplier hpa' h',
    getStrategy {| Minimum := ""; Maximum := "1.75x"; CPUTarget := 0 |} = inl update /\
    strconv.ParseFloat32 "1.75" = inl multiplier /\
    update {| MinReplicas := Some 0%nat; MaxReplicas := 1;
              TargetCPUUtilizationPercentage := None |} [1]
    = Returns ((hpa', None), h') /\
    MaxReplicas hpa' = 1 /\
    spec_roundedMultipleOf multiplier 1 = 2 /\
    MaxReplicas hpa' <> spec_roundedMultipleOf multiplier 1.
Proof.
  eexists _, _, _, _. split; [reflexivity|]. split; [reflexivity|].
  split; [reflexivity|]. split; [reflexivity|]. split; [reflexivity|].
  vm_compute. discriminate.
Qed.





(** C5, as the code has it.  [getStrategy] looks at the CPU target first,
    then at the minimum, then at the maximum, and what it returns comes from
    the first of them that is set: a positive CPU target gives the CPU
    strategy whatever the other two fields hold; otherwise a minimum that
    one of the patterns matches gives a strategy for the minimum, or, when
    its number does not convert, the error of the conversion and no
    strategy, whatever the maximum holds; otherwise a maximum that one of
    the patterns matches gives a strategy for the maximum, or the error of
    converting its number.  When neither text is matched and the CPU target
    is not positive, the result is the error "invalid arguments" and no
    strategy, and [Run] returns that error with the heap as it was. *)
Theorem resolution_takes_the_first_field_set `{Platform} (program : Hpa) :
  (0 < CPUTarget program ->
     getStrategy program = inl (setCPUTarget (CPUTarget program))) /\
  (CPUTarget program <= 0 -> recognized (Minimum program) = true ->
     (forall maximum,
        getStrategy {| Minimum := Minimum program; Maximum := maximum;
                       CPUTarget := CPUTarget program |}
        = getStrategy program) /\
     ((exists num, getStrategy program = inl (setMinimumNumber num)) \/
      (exists percent, getStrategy program = inl (setMinimumPercentage percent)) \/
      (exists multiplier, getStrategy program = inl (setMinimumMultiply multiplier)) \/
      (exists func num syntax, getStrategy program = inr (NumError func num syntax)))) /\
  (CPUTarget program <= 0 -> recognized (Minimum program) = false ->
   recognized (Maximum program) = true ->
     (exists num, getStrategy program = inl (setMaximumNumber num)) \/
     (exists percent, getStrategy program = inl (setMaximumPercentage percent)) \/
     (exists multiplier, getStrategy program = inl (setMaximumMultiply multiplier)) \/
     (exists func num syntax, getStrategy program = inr (NumError func num syntax))) /\
  (CPUTarget program <= 0 -> recognized (Minimum program) = false ->
   recognized (Maximum program) = false ->
     getStrategy program = inr (errors.New "invalid arguments") /\
     forall DryRun Update hpas h,
       Run DryRun Update program hpas h
       = Returns (Some (errors.New "invalid arguments"), h)).
Proof.
  assert (Hnum : forall s (k : Z -> strategy),
            (exists num, match strconv.Atoi s with
                         | inl n => inl (k n) | inr e => inr e end = inl (k num)) \/
            (exists func num syntax,
                match strconv.Atoi s with
                | inl n => @inl strategy error (k n) | inr e => inr e end
                = inr (NumError func num syntax))).
  { intros s k. unfold strconv.Atoi, strconv.ErrSyntax, strconv.ErrRange.
    destruct s; [right; eauto|].
    destruct (all_chars isDigit _); [|right; eauto].
    destruct (_ <=? MaxInt); [left | right]; eauto. }
  assert (Hfloat : forall s (k : spec_float -> strategy),
            (exists x, match strconv.ParseFloat32 s with
                       | inl y => inl (k y) | inr e => inr e end = inl (k x)) \/
            (exists func num syntax,
                match strconv.ParseFloat32 s with
                | inl y => @inl strategy error (k y) | inr e => inr e end
                = inr (NumError func num syntax))).
  { intros s k. unfold strconv.ParseFloat32, strconv.ErrSyntax, strconv.ErrRange.
    destruct (strconv.readDecimal 0 0 false false s) as [[mant frac]|]; [|right; eauto].
    destruct (strconv.nearest32 mant frac); eauto. }
  unfold getStrategy. split; [|split; [|split]].
  - intros Hc. apply gtb_gt in Hc. now rewrite Hc.
  - intros Hc Hr. apply gtb_le in Hc. simpl. rewrite Hc. unfold recognized in Hr.
    destruct (Number (Minimum program)) eqn:Hn.
    { split; [reflexivity|]. destruct (Hnum (Minimum program) setMinimumNumber); auto. }
    destruct (Percentage (Minimum program)) eqn:Hp.
    { split; [reflexivity|].
      destruct (Hfloat (dropLast (Minimum program)) setMinimumPercentage); auto. }
    simpl in Hr. rewrite Hr. split; [reflexivity|].
    destruct (Hfloat (dropLast (Minimum program)) setMinimumMultiply); auto.
  - intros Hc Hr1 Hr2. apply gtb_le in Hc. rewrite Hc.
    destruct (recognized_false _ Hr1) as (-> & -> & ->). unfold recognized in Hr2.
    destruct (Number (Maximum program)) eqn:Hn.
    { destruct (Hnum (Maximum program) setMaximumNumber); auto. }
    destruct (Percentage (Maximum program)) eqn:Hp.
    { destruct (Hfloat (dropLast (Maximum program)) setMaximumPercentage); auto. }
    simpl in Hr2. rewrite Hr2.
    destruct (Hfloat (dropLast (Maximum program)) setMaximumMultiply); auto.
  - intros Hc Hr1 Hr2. apply gtb_le in Hc.
    assert (Hg : getStrategy program = inr (errors.New "invalid arguments")).
    { unfold getStrategy. rewrite Hc.
      destruct (recognized_false _ Hr1) as (-> & -> & ->).
      now destruct (recognized_false _ Hr2) as (-> & -> & ->). }
    split; [exact Hg|]. intros DryRun Update hpas h. unfold Run. now rewrite Hg.
Qed.

(** Minimum "10" and maximum "2x" together: the minimum is the one applied. *)
Lemma resolution_takes_the_first_field_set_witness :
  (forall maximum,
     getStrategy {| Minimum := "10"; Maximum := maximum; CPUTarget := 0 |}
     = getStrategy {| Minimum := "10"; Maximum := "2x"; CPUTarget := 0 |}) /\
  getStrategy {| Minimum := "10"; Maximum := "2x"; CPUTarget := 0 |}
  = inl (setMinimumNumber 10) /\
  getStrategy {| Minimum := "ten"; Maximum := ""; CPUTarget := 0 |}
  = inr (errors.New "invalid arguments").
Proof.
  split; [|split].
  - apply (proj1 (proj2 (resolution_takes_the_first_field_set
                            {| Minimum := "10"; Maximum := "2x"; CPUTarget := 0 |})));
      [simpl; lia | reflexivity].
  - reflexivity.
  - apply (proj2 (proj2 (proj2 (resolution_takes_the_first_field_set
                                  {| Minimum := "ten"; Maximum := ""; CPUTarget := 0 |}))));
      [simpl; lia | reflexivity | reflexivity].
Defined.

(** C5, as it is stated, fails: the minimum "1.2.3%" is set (the pattern
    for a percentage matches it), and no strategy is produced, neither for
    the minimum nor for the maximum "5", which alone resolves: the result is
    the syntax error of [ParseFloat]. *)
Lemma unconvertible_minimum_counterexample :
  CPUTarget {| Minimum := "1.2.3%"; Maximum := "5"; CPUTarget := 0 |} <= 0 /\
  Percentage "1.2.3%" = true /\
  getStrategy {| Minimum := "1.2.3%"; Maximum := "5"; CPUTarget := 0 |}
  = inr (strconv.ErrSyntax "ParseFloat" "1.2.3") /\
  getStrategy {| Minimum := ""; Maximum := "5"; CPUTarget := 0 |}
  = inl (setMaximumNumber 5).
Proof. split; [simpl; lia|]. split; [reflexivity|]. split; reflexivity. Qed.

(** C6.  With the maximum set to "100%" and nothing else, the resolved
    strategy leaves the maximum of every record as it is, the first time and
    the second time: [int32(math.Ceil(100 / 100 * float64(maximum)))] is
    [maximum] for every [int32]. *)
Theorem hundred_percent_of_maximum_is_fixed `{Platform}
    (program : Hpa) (hpa : HorizontalPodAutoscaler) (h : heap) (l : loc) (v : Z) :
  CPUTarget program <= 0 -> recognized (Minimum program) = false ->
  Maximum program = "100%" ->
  is_int32 (MaxReplicas hpa) = true ->
  MinReplicas hpa = Some l -> h !! l = Some v ->
  percentOf hundred (MaxReplicas hpa) = MaxReplicas hpa /\
  exists update hpa1 h1 hpa2 h2,
    getStrategy program = inl update /\
    update hpa h = Returns ((hpa1, None), h1) /\
    update hpa1 h1 = Returns ((hpa2, None), h2) /\
    MaxReplicas hpa1 = MaxReplicas hpa /\
    MaxReplicas hpa2 = MaxReplicas hpa1.
Proof.
  intros Hc Hr Hm Hi Hp Hl.
  pose proof (hundred_percent (MaxReplicas hpa) Hi) as Hfix.
  split; [exact Hfix|].
  exists (setMaximumPercentage hundred).
  assert (Hg : getStrategy program = inl (setMaximumPercentage hundred)).
  { rewrite (getStrategy_maximum_percentage _ Hc Hr) by now rewrite Hm.
    now rewrite Hm. }
  destruct (lowered_ordered l v (MaxReplicas hpa) h Hl) as (v' & Hv' & _ & _).
  assert (Hsame : setMaxReplicas (MaxReplicas hpa) hpa = hpa) by now destruct hpa.
  exists hpa, (lowered l v (MaxReplicas hpa) h), hpa,
    (lowered l v' (MaxReplicas hpa) (lowered l v (MaxReplicas hpa) h)).
  split; [exact Hg|].
  rewrite (setMaximumPercentage_runs hundred hpa h l v Hp Hl).
  rewrite (setMaximumPercentage_runs hundred hpa _ l v' Hp Hv').
  rewrite Hfix, Hsame. auto.
Qed.

(** Twice "100%" on a record with bounds 2 and 7. *)
Lemma hundred_percent_of_maximum_is_fixed_witness :
  percentOf hundred 7 = 7 /\
  exists update hpa1 h1 hpa2 h2,
    getStrategy {| Minimum := ""; Maximum := "100%"; CPUTarget := 0 |} = inl update /\
    update {| MinReplicas := Some 0%nat; MaxReplicas := 7;
              TargetCPUUtilizationPercentage := None |} [2]
    = Returns ((hpa1, None), h1) /\
    update hpa1 h1 = Returns ((hpa2, None), h2) /\
    MaxReplicas hpa1 = 7 /\
    MaxReplicas hpa2 = MaxReplicas hpa1.
Proof.
  exact (hundred_percent_of_maximum_is_fixed
           {| Minimum := ""; Maximum := "100%"; CPUTarget := 0 |}
           {| MinReplicas := Some 0%nat; MaxReplicas := 7;
              TargetCPUUtilizationPercentage := None |} [2] 0%nat 2
           ltac:(simpl; lia) eq_refl eq_refl eq_refl eq_refl eq_refl).
Defined.




(** C8.  [formatMarks(50, 100, Mark{"X", 50})] is the border, 20 blanks,
    "X", and a rest; 20 is half the width of the gauge (the length of
    [field]), and the whole string has the width of the gauge plus 2
    characters. *)
Theorem half_leading_gauge `{Platform} :
  exists padding rest,
    formatMarks 50 100 [{| Label := "X"; Postion := 50 |}]
    = Returns (String.append "|" (String.append padding (String.append "X" rest))) /\
    padding = strings.Repeat " " 20 /\
    2 * len padding = len field /\
    len (String.append "|" (String.append padding (String.append "X" rest)))
    = len field + 2.
Proof.
  exists (strings.Repeat " " 20), (String.append (strings.Repeat "." 18) "| ").
  split; [vm_compute; reflexivity|]. split; [reflexivity|].
  split; vm_compute; reflexivity.
Qed.

(** C9 on the code.  The fill after the loop slices [field] by
    [int(scale) - builder.Len()] without a guard, and the length of the
    builder counts the opening border: a single mark "X" at position 100 of
    100 leaves a builder of 41 characters, and the slice [field[0:-1]]
    panics.  So does the call that [printHPAs] makes for an autoscaler with
    5 of at most 5 replicas. *)
Theorem final_fill_is_unguarded `{Platform} :
  formatMarks 0 100 [{| Label := "X"; Postion := 100 |}]
  = Panics (SliceBoundsOutOfRange (-1)) /\
  formatMarks 1 5 [{| Label := "5"; Postion := 5 |}; {| Label := "|"; Postion := 5 |}; Max]
  = Panics (SliceBoundsOutOfRange (-1)).
Proof. split; vm_compute; reflexivity. Qed.

(** C10, as the code has it.  On a record whose minimum pointer is nil both
    reconcilers panic, and so does every resolved strategy except two: the
    strategy for a CPU target never touches the minimum pointer (it writes
    through the pointer of the CPU target), and the strategy for an absolute
    minimum replaces the pointer by the address of a new cell before it
    reconciles, so it returns.  [modifyHPA] reads the old minimum before it
    applies any strategy and panics on such a record whatever the strategy.
    On a record whose minimum pointer is valid, the percentage strategy for
    the minimum keeps the pointer and writes the cell behind it. *)
Theorem nil_minimum_pointer `{Platform} (hpa : HorizontalPodAutoscaler) (h : heap) :
  MinReplicas hpa = None ->
  reconcileMax hpa h = Panics NilPointerDereference /\
  reconcileMin hpa h = Panics NilPointerDereference /\
  (forall program update,
     getStrategy program = inl update ->
     if CPUTarget program >? 0 then
       forall l v,
         TargetCPUUtilizationPercentage hpa = Some l -> h !! l = Some v ->
         update hpa h = Returns ((hpa, None), <[l := int32 (CPUTarget program)]> h)
     else if Number (Minimum program) then
       exists num hpa',
         strconv.Atoi (Minimum program) = inl num /\
         update hpa h = Returns ((hpa', None), (h ++ [int32 num])%list) /\
         MinReplicas hpa' = Some (List.length h) /\
         minimumOf hpa' (h ++ [int32 num])%list = Some (int32 num)
     else update hpa h = Panics NilPointerDereference) /\
  (forall DryRun Update update,
     modifyHPA DryRun Update hpa update h = Panics NilPointerDereference) /\
  (forall percent hpa2 h2 l v,
     MinReplicas hpa2 = Some l -> h2 !! l = Some v ->
     exists hpa',
       setMinimumPercentage percent hpa2 h2
       = Returns ((hpa', None), <[l := percentOf percent (MaxReplicas hpa2)]> h2) /\
       MinReplicas hpa' = Some l).
Proof.
  intros Hp. pose proof (nil_nothing hpa h Hp) as Hnone.
  split; [now apply reconcileMax_nil|].
  split; [now apply reconcileMin_nil|]. split; [|split].
  - intros program update Hg. apply getStrategy_resolves in Hg.
    destruct Hg as [Hpos | num Hc Hn Ha | percent Hc Hn Ha | multiplier Hc Hn Ha
                    | num Hc Hr Hn Ha | percent Hc Hr Hn Ha | multiplier Hc Hr Hn Ha];
      try (apply gtb_le in Hc; rewrite Hc).
    + apply gtb_gt in Hpos. rewrite Hpos. intros l v Hl Hv.
      now apply setCPUTarget_runs with v.
    + rewrite Hn. exists num. eexists. split; [exact Ha|].
      rewrite setMinimumNumber_runs. split; [reflexivity|].
      split; [reflexivity|]. unfold minimumOf. simpl. apply lookup_fresh.
    + rewrite (Percentage_not_Number _ Hn). now apply setMinimumPercentage_nil.
    + rewrite (Multiply_not_Number _ Hn). now apply setMinimumMultiply_nil.
    + destruct (recognized_false _ Hr) as (-> & _ & _). now apply setMaximumNumber_nil.
    + destruct (recognized_false _ Hr) as (-> & _ & _).
      now apply setMaximumPercentage_nil.
    + destruct (recognized_false _ Hr) as (-> & _ & _).
      now apply setMaximumMultiply_nil.
  - intros DryRun Update update. unfold modifyHPA, bind. now rewrite Hp.
  - intros percent hpa2 h2 l v Hp2 Hl.
    rewrite (setMinimumPercentage_runs percent hpa2 h2 l v Hp2 Hl).
    eexists. split; [reflexivity | reflexivity].
Qed.

(** A record without a minimum, and the strategies for "50%" and "3". *)
Lemma nil_minimum_pointer_witness :
  let hpa := {| MinReplicas := None; MaxReplicas := 1;
                TargetCPUUtilizationPercentage := None |} in
  reconcileMax hpa [] = Panics NilPointerDereference /\
  reconcileMin hpa [] = Panics NilPointerDereference /\
  setMinimumPercentage (Float64.of_int 50) hpa [] = Panics NilPointerDereference /\
  exists num hpa',
    strconv.Atoi "3" = inl num /\
    setMinimumNumber 3 hpa [] = Returns ((hpa', None), ([] ++ [int32 num])%list) /\
    MinReplicas hpa' = Some (List.length (@nil Z)) /\
    minimumOf hpa' ([] ++ [int32 num])%list = Some (int32 num).
Proof.
  pose proof (nil_minimum_pointer
                {| MinReplicas := None; MaxReplicas := 1;
                   TargetCPUUtilizationPercentage := None |} [] eq_refl)
    as (Hmax & Hmin & Hres & _).
  split; [exact Hmax|]. split; [exact Hmin|]. split.
  - exact (Hres {| Minimum := "50%"; Maximum := ""; CPUTarget := 0 |}
                (setMinimumPercentage (Float64.of_int 50)) eq_refl).
  - exact (Hres {| Minimum := "3"; Maximum := ""; CPUTarget := 0 |}
                (setMinimumNumber 3) eq_refl).
Defined.

(** C10, as it is stated, fails: the strategy resolved for the minimum "3"
    returns on the record whose minimum pointer is nil, and leaves it with a
    minimum of 3. *)
Lemma nil_minimum_pointer_counterexample :
  exists update hpa' h',
    getStrategy {| Minimum := "3"; Maximum := ""; CPUTarget := 0 |} = inl update /\
    update {| MinReplicas := None; MaxReplicas := 1;
              TargetCPUUtilizationPercentage := None |} []
    = Returns ((hpa', None), h') /\
    minimumOf hpa' h' = Some 3 /\
    MaxReplicas hpa' = 3.
Proof.
  exists (setMinimumNumber 3). eexists _, _.
  split; [reflexivity|]. split; [reflexivity|]. split; reflexivity.
Qed.

(** ** What the arithmetic of the code gives on four inputs *)

(** X1.  The minimum "7%" on a record with maximum 100: in float64, [7 / 100] is
    just above 0.07 and [7 / 100 * 100] is just above 7, so the ceiling is 8
    and the minimum is set to 8. *)
Theorem seven_percent_of_a_hundred `{Platform} :
  exists update hpa' h',
    getStrategy {| Minimum := "7%"; Maximum := ""; CPUTarget := 0 |} = inl update /\
    update {| MinReplicas := Some 0%nat; MaxReplicas := 100;
              TargetCPUUtilizationPercentage := None |} [1]
    = Returns ((hpa', None), h') /\
    minimumOf hpa' h' = Some 8 /\
    MaxReplicas hpa' = 100.
Proof.
  eexists _, _, _. split; [reflexivity|].
  split; [vm_compute; reflexivity|]. split; reflexivity.
Qed.

(** X2.  The maximum "0.7x" on a record with maximum 10: the multiplier is read
    with the precision of a float32, which is just below 0.7, the product is
    just below 7, and the maximum is set to 6. *)
Theorem seven_tenths_of_ten `{Platform} :
  exists update hpa' h',
    getStrategy {| Minimum := ""; Maximum := "0.7x"; CPUTarget := 0 |} = inl update /\
    update {| MinReplicas := Some 0%nat; MaxReplicas := 10;
              TargetCPUUtilizationPercentage := None |} [1]
    = Returns ((hpa', None), h') /\
    MaxReplicas hpa' = 6 /\
    minimumOf hpa' h' = Some 1.
Proof.
  eexists _, _, _. split; [reflexivity|].
  split; [vm_compute; reflexivity|]. split; reflexivity.
Qed.

(** X3.  The minimum "4294967297" on a record with maximum 10: the number fits an
    [int], and [int32] keeps its low 32 bits, so the minimum is set to 1. *)
Theorem absolute_minimum_wraps `{Platform} :
  exists update hpa' h',
    getStrategy {| Minimum := "4294967297"; Maximum := ""; CPUTarget := 0 |}
    = inl update /\
    update {| MinReplicas := Some 0%nat; MaxReplicas := 10;
              TargetCPUUtilizationPercentage := None |} [2]
    = Returns ((hpa', None), h') /\
    minimumOf hpa' h' = Some 1 /\
    MaxReplicas hpa' = 10.
Proof.
  eexists _, _, _. split; [reflexivity|].
  split; [vm_compute; reflexivity|]. split; reflexivity.
Qed.

(** X4.  The minimum "0.1%" on a record with maximum 1000: the percentage is
    read with the precision of a float32, which is above 0.1, so the product
    is above 1, the ceiling is 2, and the minimum is set to 2. *)
Theorem tenth_of_a_percent_of_a_thousand `{Platform} :
  exists update hpa' h',
    getStrategy {| Minimum := "0.1%"; Maximum := ""; CPUTarget := 0 |} = inl update /\
    update {| MinReplicas := Some 0%nat; MaxReplicas := 1000;
              TargetCPUUtilizationPercentage := None |} [1]
    = Returns ((hpa', None), h') /\
    minimumOf hpa' h' = Some 2 /\
    MaxReplicas hpa' = 1000.
Proof.
  eexists _, _, _. split; [reflexivity|].
  split; [vm_compute; reflexivity|]. split; reflexivity.
Qed.
